(** * Vesting calculator: a shallow embedding of [vesting_service.go]

    The development follows the Go sources [models.go] and
    [vesting_service.go].  Go's [int] is the 64-bit two's complement integer,
    [float64] is IEEE 754 binary64 with round-to-nearest-even (each operation
    rounded on its own, as the amd64 compiler emits them), and [time.Time]
    is a civil date and time of day in UTC, the only location the program
    and its tests use. *)

From Stdlib Require Import ZArith Lia Bool List.
From Stdlib Require Import Floats.SpecFloat.
From stdpp Require Import base gmap strings list.
From Equations Require Import Equations.

Local Open Scope Z_scope.

(** ** Go's [int] *)

Module GoInt.

Definition min_int : Z := - 2 ^ 63.
Definition max_int : Z := 2 ^ 63 - 1.

(** The values an [int] variable can hold. *)
Definition in_range (z : Z) : Prop := min_int <= z <= max_int.

(** Two's complement wrap-around of an exact result. *)
Definition wrap (z : Z) : Z := (z + 2 ^ 63) mod 2 ^ 64 - 2 ^ 63.

Definition sub (a b : Z) : Z := wrap (a - b).

(** [a / b] and [a % b] truncate toward zero.  The only divisor in the
    program is the constant 12, so the quotient cannot overflow. *)
Definition quo (a b : Z) : Z := Z.quot a b.
Definition rem (a b : Z) : Z := Z.rem a b.

Lemma wrap_id z : in_range z -> wrap z = z.
Proof.
  unfold in_range, wrap, min_int, max_int. intros H.
  rewrite Z.mod_small by lia. lia.
Qed.

Lemma wrap_in_range z : in_range (wrap z).
Proof.
  unfold in_range, wrap, min_int, max_int.
  pose proof (Z.mod_pos_bound (z + 2 ^ 63) (2 ^ 64) ltac:(lia)). lia.
Qed.

End GoInt.

(** ** Go's [float64] *)

Module Float64.

Definition prec : Z := 53.
Definition emax : Z := 1024.

Definition t : Type := spec_float.

Definition add : t -> t -> t := SFadd prec emax.
Definition mul : t -> t -> t := SFmul prec emax.
Definition div : t -> t -> t := SFdiv prec emax.

Definition zero : t := S754_zero false.

(** The conversion [float64(n)] of an integer: the nearest binary64. *)
Definition of_int (n : Z) : t := binary_normalize prec emax n 0 false.

(** The integer [±m * 2^e] truncated toward zero, in absolute value. *)
Definition trunc_abs (m : positive) (e : Z) : Z :=
  match e with
  | Z0 => Zpos m
  | Zpos _ => Z.shiftl (Zpos m) e
  | Zneg p => Z.shiftr (Zpos m) (Zpos p)
  end.

(** The conversion [int(x)]: the fraction is discarded.  Go leaves the
    result unspecified when the value is not representable; the amd64
    instruction returns the smallest integer there, and so does this
    definition. *)
Definition to_int (x : t) : Z :=
  match x with
  | S754_zero _ => 0
  | S754_finite s m e =>
      let z := cond_Zopp s (trunc_abs m e) in
      if (GoInt.min_int <=? z) && (z <=? GoInt.max_int) then z
      else GoInt.min_int
  | S754_infinity _ | S754_nan => GoInt.min_int
  end.

(** [math.Floor]: the greatest integer value not above [x]; zeros,
    infinities and NaN are returned unchanged. *)
Definition floor (x : t) : t :=
  match x with
  | S754_finite s m e =>
      if 0 <=? e then x
      else
        let z := cond_Zopp s (Zpos m) / 2 ^ (- e) in
        if z =? 0 then S754_zero false else of_int z
  | _ => x
  end.

End Float64.

(** ** Go's [time.Time], in UTC *)

Module GoTime.

Inductive Month : Set :=
| January | February | March | April | May | June
| July | August | September | October | November | December.

Definition Month_to_Z (m : Month) : Z :=
  match m with
  | January => 1 | February => 2 | March => 3 | April => 4
  | May => 5 | June => 6 | July => 7 | August => 8
  | September => 9 | October => 10 | November => 11 | December => 12
  end.

(** The month whose number is [i + 1], for [0 <= i < 12]. *)
Definition Month_of_index (i : Z) : Month :=
  match i with
  | 0 => January | 1 => February | 2 => March | 3 => April
  | 4 => May | 5 => June | 6 => July | 7 => August
  | 8 => September | 9 => October | 10 => November | _ => December
  end.

(** A point in time: the civil date and the nanoseconds since midnight. *)
Record Time : Set := mkTime {
  Year : Z;
  Month_ : Month;
  Day : Z;
  Nanos : Z
}.

(** The zero value [time.Time{}]: January 1, year 1, 00:00:00 UTC. *)
Definition zero : Time := mkTime 1 January 1 0.

Definition isLeap (year : Z) : bool :=
  (Z.rem year 4 =? 0) &&
  (negb (Z.rem year 100 =? 0) || (Z.rem year 400 =? 0)).

Definition daysIn (m : Month) (year : Z) : Z :=
  match m with
  | February => if isLeap year then 29 else 28
  | April | June | September | November => 30
  | _ => 31
  end.

(** [norm hi lo base]: the pair [(nhi, nlo)] with
    [hi * base + lo = nhi * base + nlo] and [0 <= nlo < base]. *)
Definition norm (hi lo base : Z) : Z * Z := (hi + lo / base, lo mod base).

(** [time.Date(year, month, day, ...)] for a month number of any sign and
    a day between 1 and 31: the month overflows into the year, and a day
    past the end of the month overflows into the next month (October 31
    plus one month is December 1). *)
Definition Date (year month day nanos : Z) : Time :=
  let '(y, m0) := norm year (month - 1) 12 in
  let m := Month_of_index m0 in
  if daysIn m y <? day then
    let '(y', m1) := norm y (m0 + 1) 12 in
    mkTime y' (Month_of_index m1) (day - daysIn m y) nanos
  else mkTime y m day nanos.

(** [t.AddDate(0, months, 0)].  Go adds in [int] and keeps an instant as a
    count of seconds in an [int64], and both wrap; this definition is the
    result as long as neither does, which is the case far beyond the times
    and month counts of [in_scope] and [months_in_scope] below. *)
Definition AddDate_months (t : Time) (months : Z) : Time :=
  Date (Year t) (Month_to_Z (Month_ t) + months) (Day t) (Nanos t).

(** [t.Before(u)]: the instant [t] is strictly earlier than [u]. *)
Definition Before (t u : Time) : bool :=
  (Year t <? Year u) ||
  ((Year t =? Year u) &&
   ((Month_to_Z (Month_ t) <? Month_to_Z (Month_ u)) ||
    ((Month_to_Z (Month_ t) =? Month_to_Z (Month_ u)) &&
     ((Day t <? Day u) ||
      ((Day t =? Day u) && (Nanos t <? Nanos u)))))).

(** A normalised time, as every [time.Time] value is. *)
Definition valid (t : Time) : Prop :=
  1 <= Day t <= daysIn (Month_ t) (Year t) /\ 0 <= Nanos t < 86400000000000.

(** The times and month counts for which theorems about the result of
    [AddDate_months] are stated: normalised times within a thousand
    million years of year 0, and as many years of months.  The seconds of
    such a time, and of such a time moved by so many months, are far inside
    the [int64] of a [time.Time], which spans more than 292 thousand
    million years either way. *)
Definition max_year : Z := 1000000000.

Definition in_scope (t : Time) : Prop :=
  valid t /\ - max_year <= Year t <= max_year.

Definition months_in_scope (months : Z) : Prop :=
  - 12 * max_year <= months <= 12 * max_year.

(** Months since year 0: the termination measure of month-stepping loops. *)
Definition month_index (t : Time) : Z :=
  Year t * 12 + (Month_to_Z (Month_ t) - 1).

Lemma Month_to_Z_range m : 1 <= Month_to_Z m <= 12.
Proof. destruct m; simpl; lia. Qed.

Lemma Month_of_index_to_Z i :
  0 <= i < 12 -> Month_to_Z (Month_of_index i) = i + 1.
Proof.
  intros H.
  assert (i = 0 \/ i = 1 \/ i = 2 \/ i = 3 \/ i = 4 \/ i = 5 \/ i = 6 \/
          i = 7 \/ i = 8 \/ i = 9 \/ i = 10 \/ i = 11) as Hi by lia.
  repeat (destruct Hi as [-> | Hi]; [reflexivity |]). subst. reflexivity.
Qed.

Lemma daysIn_range m y : 28 <= daysIn m y <= 31.
Proof. destruct m; simpl; try lia. destruct (isLeap y); lia. Qed.

Lemma Before_month_index t u :
  Before t u = true -> month_index t <= month_index u.
Proof.
  unfold Before, month_index.
  pose proof (Month_to_Z_range (Month_ t)) as Ht.
  pose proof (Month_to_Z_range (Month_ u)) as Hu.
  rewrite !orb_true_iff, !andb_true_iff, !Z.ltb_lt, !Z.eqb_eq. lia.
Qed.

Lemma Before_irrefl t : Before t t = false.
Proof.
  unfold Before. rewrite !Z.ltb_irrefl, !Z.eqb_refl. reflexivity.
Qed.

Lemma month_index_Date y m d ns :
  y * 12 + (m - 1) <= month_index (Date y m d ns).
Proof.
  unfold Date, norm, month_index.
  pose proof (Z.mod_pos_bound (m - 1) 12 ltac:(lia)) as Hm.
  pose proof (Z.div_mod (m - 1) 12 ltac:(lia)) as Hd.
  destruct (daysIn _ _ <? d); simpl.
  - pose proof (Z.mod_pos_bound ((m - 1) mod 12 + 1) 12 ltac:(lia)) as Hm'.
    pose proof (Z.div_mod ((m - 1) mod 12 + 1) 12 ltac:(lia)) as Hd'.
    rewrite Month_of_index_to_Z by lia. lia.
  - rewrite Month_of_index_to_Z by lia. lia.
Qed.

Lemma month_index_AddDate_months t n :
  month_index t + n <= month_index (AddDate_months t n).
Proof.
  unfold AddDate_months.
  pose proof (month_index_Date (Year t) (Month_to_Z (Month_ t) + n)
                (Day t) (Nanos t)).
  unfold month_index at 1. lia.
Qed.

(** Adding months to a normalised time gives a normalised time. *)
Lemma AddDate_months_valid t n : valid t -> valid (AddDate_months t n).
Proof.
  unfold valid, AddDate_months, Date, norm. intros [[Hd1 Hd2] Hns].
  pose proof (daysIn_range (Month_ t) (Year t)) as Ht.
  set (y := Year t + (Month_to_Z (Month_ t) + n - 1) / 12).
  set (m := Month_of_index ((Month_to_Z (Month_ t) + n - 1) mod 12)).
  pose proof (daysIn_range m y) as Hm.
  destruct (Z.ltb_spec (daysIn m y) (Day t)) as [Hroll | Hfit]; simpl.
  - split; [| exact Hns].
    match goal with
    | |- _ <= _ <= daysIn ?m' ?y' => pose proof (daysIn_range m' y')
    end. lia.
  - split; [lia | exact Hns].
Qed.

End GoTime.

Import GoTime.

(** ** The data model ([models.go]) *)

Record VestingSchedule : Type := mkVestingSchedule {
  CliffMonths : Z;
  VestingMonths : Z;
  VestingType : string
}.

Record Employee : Type := mkEmployee {
  ID : string;
  Name : string;
  StartDate : Time;
  TotalUnits : Z;
  Schedule : VestingSchedule
}.

Record VestingResult : Type := mkVestingResult {
  EmployeeID : string;
  VestedUnits : Z;
  UnvestedUnits : Z;
  NextVestDate : Time;
  AsOfDate : Time
}.

(** The errors the service builds with [fmt.Errorf], one constructor for
    each message, with the value the message prints. *)
Inductive error : Type :=
| ErrInvalidTotalUnits (units : Z)
| ErrResultNotFound (id : string)
| ErrNegativeCliff
| ErrVestingNotAfterCliff
| ErrInvalidVestingType (ty : string).

(** A Go result pair [(value, error)] of which exactly one part is set. *)
Inductive result (A : Type) : Type :=
| Ok (a : A)
| Err (e : error).
Arguments Ok {A} a.
Arguments Err {A} e.

(** ** Calendar helpers *)

Definition inspect {A : Type} (a : A) : {b : A | a = b} := exist _ a eq_refl.

(** The loop of [monthsBetween]: [start] moves forward one month at a time
    while it is before [end_], and [months] counts the steps.  The locals
    [month] and [year] of the source are written but never read.  The
    counter cannot leave the range of [int]: the years of a [time.Time]
    span fewer than 2^43 months. *)
Equations? monthsBetween_loop (start end_ : Time) (months : Z) : Z
  by wf (Z.to_nat (month_index end_ - month_index start + 1)) lt :=
monthsBetween_loop start end_ months with inspect (Before start end_) := {
  | exist _ true Hb =>
      monthsBetween_loop (AddDate_months start 1) end_ (months + 1)
  | exist _ false _ => months }.
Proof.
  pose proof (Before_month_index _ _ Hb).
  pose proof (month_index_AddDate_months start 1). lia.
Qed.

Definition monthsBetween (start end_ : Time) : Z :=
  monthsBetween_loop start end_ 0.

Definition addMonths (t : Time) (months : Z) : Time :=
  AddDate_months t months.

(** ** The vesting calculator ([calculateVesting]) *)

(** [percentages := []float64{0.1, 0.2, 0.3, 0.4}]: each constant is the
    binary64 nearest to the decimal, which is the correctly rounded
    quotient of the two integers. *)
Definition percentages : list Float64.t :=
  [ Float64.div (Float64.of_int 1) (Float64.of_int 10);
    Float64.div (Float64.of_int 2) (Float64.of_int 10);
    Float64.div (Float64.of_int 3) (Float64.of_int 10);
    Float64.div (Float64.of_int 4) (Float64.of_int 10) ].

(** [percentages[i]]; every use is guarded so that [0 <= i < 4]
    (lemma [current_year_index_in_range]). *)
Definition percentage_at (i : Z) : Float64.t :=
  nth (Z.to_nat i) percentages Float64.zero.

(** The loop
    [for i := 0; i <= yearsVested && i < len(percentages); i++] with body
    [totalPercent += percentages[i]]; [rest] is [percentages[i:]], so
    [i < len(percentages)] holds exactly when [rest] is not empty. *)
Fixpoint sum_tranches (rest : list Float64.t) (i yearsVested : Z)
    (totalPercent : Float64.t) : Float64.t :=
  match rest with
  | [] => totalPercent
  | p :: rest' =>
      if i <=? yearsVested
      then sum_tranches rest' (i + 1) yearsVested (Float64.add totalPercent p)
      else totalPercent
  end.

(** [vestingMonthsAfterCliff], the divisor of the linear policy. *)
Definition vestingMonthsAfterCliff (s : VestingSchedule) : Z :=
  GoInt.sub (VestingMonths s) (CliffMonths s).

(** The linear branch: the units vested after [monthsEmployed] months. *)
Definition linear_vested (employee : Employee) (monthsEmployed : Z) : Z :=
  let s := Schedule employee in
  let monthsVested := GoInt.sub monthsEmployed (CliffMonths s) in
  let monthsVested :=
    if GoInt.sub (VestingMonths s) (CliffMonths s) <? monthsVested
    then GoInt.sub (VestingMonths s) (CliffMonths s)
    else monthsVested in
  let unitsPerMonth :=
    Float64.div (Float64.of_int (TotalUnits employee))
                (Float64.of_int (vestingMonthsAfterCliff s)) in
  Float64.to_int (Float64.mul unitsPerMonth (Float64.of_int monthsVested)).

(** The backloaded branch: [totalPercent] after the loop and the partial
    year. *)
Definition backloaded_totalPercent (elapsed : Z) : Float64.t :=
  let yearsVested := GoInt.quo elapsed 12 in
  let totalPercent := sum_tranches percentages 0 yearsVested Float64.zero in
  let monthsInCurrentYear := GoInt.rem elapsed 12 in
  if (yearsVested <? Z.of_nat (length percentages)) && (0 <? monthsInCurrentYear)
  then
    let currentYearPercent :=
      Float64.mul (percentage_at yearsVested)
        (Float64.div (Float64.of_int monthsInCurrentYear) (Float64.of_int 12)) in
    Float64.add totalPercent currentYearPercent
  else totalPercent.

Definition backloaded_vested (employee : Employee) (monthsEmployed : Z) : Z :=
  let elapsed := GoInt.sub monthsEmployed (CliffMonths (Schedule employee)) in
  Float64.to_int
    (Float64.floor
       (Float64.mul (Float64.of_int (TotalUnits employee))
                    (backloaded_totalPercent elapsed))).

Definition calculateVesting (employee : Employee) (asOfDate : Time)
  : result VestingResult :=
  if TotalUnits employee <=? 0 then Err (ErrInvalidTotalUnits (TotalUnits employee))
  else
    let monthsEmployed := monthsBetween (StartDate employee) asOfDate in
    if monthsEmployed <? CliffMonths (Schedule employee) then
      Ok {| EmployeeID := ID employee;
            VestedUnits := 0;
            UnvestedUnits := TotalUnits employee;
            NextVestDate :=
              addMonths (StartDate employee) (CliffMonths (Schedule employee));
            AsOfDate := asOfDate |}
    else
      let vestedUnits :=
        if String.eqb (VestingType (Schedule employee)) "linear"
        then linear_vested employee monthsEmployed
        else if String.eqb (VestingType (Schedule employee)) "backloaded"
        then backloaded_vested employee monthsEmployed
        else 0 in
      let nextVestDate :=
        if vestedUnits <? TotalUnits employee then addMonths asOfDate 1
        else GoTime.zero in
      Ok {| EmployeeID := ID employee;
            VestedUnits := vestedUnits;
            UnvestedUnits := GoInt.sub (TotalUnits employee) vestedUnits;
            NextVestDate := nextVestDate;
            AsOfDate := asOfDate |}.

(** [ValidateSchedule]; [None] is the [nil] error. *)
Definition ValidateSchedule (schedule : VestingSchedule) : option error :=
  if CliffMonths schedule <? 0 then Some ErrNegativeCliff
  else if VestingMonths schedule <=? CliffMonths schedule
  then Some ErrVestingNotAfterCliff
  else if negb (String.eqb (VestingType schedule) "linear") &&
          negb (String.eqb (VestingType schedule) "backloaded")
  then Some (ErrInvalidVestingType (VestingType schedule))
  else None.

(** ** The service: result cache, mutex and batch processing *)

(** What a goroutine does to the state it shares with the others: the
    mutex [vs.mu], the map [vs.cache.results], the pointer [vs.cache] and
    the error channel of a batch. *)
Inductive event : Type :=
| EvLock
| EvUnlock
| EvMapRead (id : string)
| EvMapWrite (id : string) (r : VestingResult)
| EvCacheReplace
| EvChanSend (e : error).

(** A method of [VestingService] is a function of the cache contents that
    returns its value, the new contents and the events it performed, in
    program order. *)
Definition M (A : Type) : Type :=
  gmap string VestingResult -> A * gmap string VestingResult * list event.

#[export] Instance M_ret : MRet M := fun A a c => (a, c, []).

#[export] Instance M_bind : MBind M := fun A B f m c =>
  let '(a, c1, tr1) := m c in
  let '(b, c2, tr2) := f a c1 in
  (b, c2, tr1 ++ tr2).

Definition lock : M unit := fun c => (tt, c, [EvLock]).
Definition unlock : M unit := fun c => (tt, c, [EvUnlock]).
Definition map_read (id : string) : M (option VestingResult) :=
  fun c => (c !! id, c, [EvMapRead id]).
(** A map assignment that no other access to the map overlaps. *)
Definition map_write (id : string) (r : VestingResult) : M unit :=
  fun c => (tt, <[id := r]> c, [EvMapWrite id r]).
Definition cache_replace : M unit := fun c => (tt, ∅, [EvCacheReplace]).
Definition chan_send (e : error) : M unit := fun c => (tt, c, [EvChanSend e]).

(** [GetResult]: [Some result] when the key exists; the deferred unlock
    runs as the method returns. *)
Definition GetResult (employeeID : string) : M (option VestingResult) :=
  _ ← lock; r ← map_read employeeID; _ ← unlock; mret r.

Definition ClearCache : M unit :=
  _ ← lock; _ ← cache_replace; unlock.

Fixpoint GetBatchResults_loop (employeeIDs : list string)
    (results : gmap string VestingResult)
  : M (result (gmap string VestingResult)) :=
  match employeeIDs with
  | [] => mret (Ok results)
  | id :: rest =>
      r ← GetResult id;
      match r with
      | Some res => GetBatchResults_loop rest (<[id := res]> results)
      | None => mret (Err (ErrResultNotFound id))
      end
  end.

Definition GetBatchResults (employeeIDs : list string)
  : M (result (gmap string VestingResult)) :=
  GetBatchResults_loop employeeIDs ∅.

(** The goroutine [ProcessBatch] starts for one employee.  Its value is
    what it sent on the [errors] channel, if anything. *)
Definition worker (employee : Employee) (asOfDate : Time) : M (option error) :=
  match calculateVesting employee asOfDate with
  | Err err => _ ← chan_send err; mret (Some err)
  | Ok res => _ ← map_write (ID employee) res; mret None
  end.

(** The workers of a batch run one after another, in the order [order]:
    each performs its effect on the shared state, a send or a map write,
    before the next one starts.  [errors] is the content of the channel,
    oldest first; the channel has room for every worker, so no send
    blocks.  These are the runs in which no two map writes overlap; the
    goroutines running at the same time, with map writes that can meet,
    are [run_schedule] below. *)
Fixpoint run_workers (order : list Employee) (asOfDate : Time)
    (errors : list error) : M (list error) :=
  match order with
  | [] => mret errors
  | employee :: rest =>
      sent ← worker employee asOfDate;
      run_workers rest asOfDate (errors ++ option_list sent)
  end.

(** [ProcessBatch] when the workers act one after another in the order
    [order]: after [wg.Wait()] the channel is closed and drained, and the
    first error received is returned.  Every value on the channel is a
    non-nil error. *)
Definition ProcessBatch (order : list Employee) (asOfDate : Time)
  : M (option error) :=
  errors ← run_workers order asOfDate [];
  mret (head errors).

(** The locking discipline: the map and the cache pointer are only touched
    between [Lock] and [Unlock]. *)
Fixpoint lock_discipline (held : bool) (tr : list event) : bool :=
  match tr with
  | [] => true
  | EvLock :: tr' => lock_discipline true tr'
  | EvUnlock :: tr' => lock_discipline false tr'
  | (EvMapRead _ | EvMapWrite _ _ | EvCacheReplace) :: tr' =>
      held && lock_discipline held tr'
  | EvChanSend _ :: tr' => lock_discipline held tr'
  end.

(** *** The workers of a batch as concurrent goroutines

    [run_workers] above lets the workers act one after another.  In the
    program they are goroutines that run at the same time, and the map
    assignment of line 37 is not one indivisible action: the Go runtime
    marks the map as being written when the assignment starts, removes the
    mark when it ends, and stops the whole program with
    "fatal error: concurrent map writes" when an assignment starts while
    the mark is set.  The definitions below follow the goroutines step by
    step.  Two assignments that overlap stop the program here at the
    second one; what the map would hold had the runtime let them pass is
    not modelled, and no theorem speaks of it. *)

(** Where a worker goroutine is: before its effect, inside the map
    assignment, or finished ([wg.Done()] has run). *)
Inductive goroutine : Type :=
| GStart (employee : Employee)
| GAssigning (id : string) (res : VestingResult)
| GDone.

(** The state the workers of one [ProcessBatch] call share: the map, the
    runtime's mark on it, the content of the [errors] channel and the
    goroutines. *)
Record batch : Type := mkBatch {
  b_results : gmap string VestingResult;
  b_writing : bool;
  b_errors : list error;
  b_workers : list goroutine
}.

(** One step of goroutine [i]; [None] is the fatal error.  A goroutine
    that has finished, or an index that names none, does nothing. *)
Definition worker_step (asOfDate : Time) (i : nat) (b : batch) : option batch :=
  match b_workers b !! i with
  | Some (GStart employee) =>
      match calculateVesting employee asOfDate with
      | Err err =>
          Some (mkBatch (b_results b) (b_writing b) (b_errors b ++ [err])
                  (<[i := GDone]> (b_workers b)))
      | Ok res =>
          if b_writing b then None
          else Some (mkBatch (b_results b) true (b_errors b)
                       (<[i := GAssigning (ID employee) res]> (b_workers b)))
      end
  | Some (GAssigning id res) =>
      Some (mkBatch (<[id := res]> (b_results b)) false (b_errors b)
              (<[i := GDone]> (b_workers b)))
  | Some GDone | None => Some b
  end.

(** The goroutines scheduled in the order [schedule], one step each time. *)
Fixpoint run_schedule (asOfDate : Time) (schedule : list nat) (b : batch)
  : option batch :=
  match schedule with
  | [] => Some b
  | i :: rest =>
      match worker_step asOfDate i b with
      | Some b' => run_schedule asOfDate rest b'
      | None => None
      end
  end.

Definition is_done (g : goroutine) : bool :=
  match g with GDone => true | _ => false end.

(** What a call of [ProcessBatch] comes to: the program is stopped by the
    runtime, [wg.Wait()] still waits for a goroutine, or the call returns
    the first error of the channel, leaving the map as it then is. *)
Inductive batch_outcome : Type :=
| Aborted
| Waiting
| Returned (err : option error) (results : gmap string VestingResult).

Definition ProcessBatch_goroutines (employees : list Employee)
    (asOfDate : Time) (schedule : list nat)
    (cache : gmap string VestingResult) : batch_outcome :=
  match run_schedule asOfDate schedule
          (mkBatch cache false [] (GStart <$> employees)) with
  | None => Aborted
  | Some b =>
      if forallb is_done (b_workers b)
      then Returned (head (b_errors b)) (b_results b)
      else Waiting
  end.

(** What holds of the shared state after any steps of the goroutines that
    did not stop the program: every goroutine is where its employee's
    calculation puts it, the mark is set only while a goroutine is inside
    the assignment, the channel holds the errors of the finished workers
    that failed, and a key of the map is untouched or holds the result of
    a finished worker that succeeded for it. *)
Definition batch_invariant (employees : list Employee) (asOfDate : Time)
    (cache : gmap string VestingResult) (b : batch) : Prop :=
  (forall i,
      match b_workers b !! i with
      | Some (GStart e) => employees !! i = Some e
      | Some (GAssigning id res) =>
          exists e, employees !! i = Some e /\ id = ID e /\
                    calculateVesting e asOfDate = Ok res
      | Some GDone => is_Some (employees !! i)
      | None => employees !! i = None
      end) /\
  (b_writing b = true ->
   exists i id res, b_workers b !! i = Some (GAssigning id res)) /\
  (forall x,
      x ∈ b_errors b <->
      exists i e, employees !! i = Some e /\ b_workers b !! i = Some GDone /\
                  calculateVesting e asOfDate = Err x) /\
  (forall id,
      (~ (exists i e res,
             employees !! i = Some e /\ b_workers b !! i = Some GDone /\
             ID e = id /\ calculateVesting e asOfDate = Ok res) /\
       b_results b !! id = cache !! id) \/
      (exists i e res,
          employees !! i = Some e /\ b_workers b !! i = Some GDone /\
          ID e = id /\ calculateVesting e asOfDate = Ok res /\
          b_results b !! id = Some res)).

(** The backloaded rule as the specification words it: the tranches of the
    years with index 0 to [fullYears], the last index being 3 at most,
    summed in order, and the fraction [remainderMonths / 12] of the tranche
    of index [fullYears] when [fullYears < 4] and [remainderMonths > 0]. *)
Definition spec_backloaded_totalPercent (fullYears remainderMonths : Z)
  : Float64.t :=
  let summed :=
    foldl Float64.add Float64.zero
      (take (Z.to_nat (Z.min fullYears 3 + 1)) percentages) in
  if (fullYears <? 4) && (0 <? remainderMonths)
  then Float64.add summed
         (Float64.mul (percentage_at fullYears)
            (Float64.div (Float64.of_int remainderMonths) (Float64.of_int 12)))
  else summed.

(** What the channel has received, the map after the writes and the events
    performed once the workers have run in the order [order]. *)
Definition sent_errors (asOfDate : Time) (order : list Employee) : list error :=
  omap (fun e => match calculateVesting e asOfDate with
                 | Err err => Some err
                 | Ok _ => None
                 end) order.

Definition written_cache (asOfDate : Time) (order : list Employee)
    (cache : gmap string VestingResult) : gmap string VestingResult :=
  foldl (fun c e => match calculateVesting e asOfDate with
                    | Ok res => <[ID e := res]> c
                    | Err _ => c
                    end) cache order.

Definition worker_events (asOfDate : Time) (order : list Employee) : list event :=
  (fun e => match calculateVesting e asOfDate with
            | Ok res => EvMapWrite (ID e) res
            | Err err => EvChanSend err
            end) <$> order.

(** [NewVestingCache] and [NewVestingService]: the map of a new cache is
    empty, and a new service owns a new cache. *)
Definition NewVestingCache : gmap string VestingResult := ∅.

Definition NewVestingService : gmap string VestingResult := NewVestingCache.

(** ** The model on the values the tests of the repository use *)

Example percentages_bits :
  percentages =
  [ S754_finite false 7205759403792794 (-56);
    S754_finite false 7205759403792794 (-55);
    S754_finite false 5404319552844595 (-54);
    S754_finite false 7205759403792794 (-54) ].
Proof. vm_compute. reflexivity. Qed.

Example sum_of_tranches_is_one :
  sum_tranches percentages 0 3 Float64.zero = Float64.of_int 1.
Proof. vm_compute. reflexivity. Qed.

Example monthsBetween_24_months :
  monthsBetween (mkTime 2021 January 1 0) (mkTime 2023 January 1 0) = 24.
Proof. vm_compute. reflexivity. Qed.

Example AddDate_months_end_of_month :
  AddDate_months (mkTime 2023 January 31 0) 1 = mkTime 2023 March 3 0 /\
  AddDate_months (mkTime 2020 January 31 0) 1 = mkTime 2020 March 2 0 /\
  AddDate_months (mkTime 2023 October 31 0) 1 = mkTime 2023 December 1 0 /\
  AddDate_months (mkTime 2023 November 15 0) 14 = mkTime 2025 January 15 0.
Proof. vm_compute. repeat split. Qed.

Example linear_test_fully_vested :
  calculateVesting
    (mkEmployee "emp4" "Fully-vested Employee" (mkTime 2019 January 1 0) 48000
       (mkVestingSchedule 12 48 "linear"))
    (mkTime 2023 June 1 0) =
  Ok {| EmployeeID := "emp4"; VestedUnits := 48000; UnvestedUnits := 0;
        NextVestDate := GoTime.zero; AsOfDate := mkTime 2023 June 1 0 |}.
Proof. vm_compute. reflexivity. Qed.

Example linear_test_concurrent_employee :
  calculateVesting
    (mkEmployee "concurrent_emp_0" "Employee 0" (mkTime 2021 January 1 0) 10000
       (mkVestingSchedule 12 48 "linear"))
    (mkTime 2023 January 1 0) =
  Ok {| EmployeeID := "concurrent_emp_0"; VestedUnits := 3333;
        UnvestedUnits := 6667; NextVestDate := mkTime 2023 February 1 0;
        AsOfDate := mkTime 2023 January 1 0 |}.
Proof. vm_compute. reflexivity. Qed.

Example invalid_units_test :
  calculateVesting
    (mkEmployee "neg_units" "Negative Units Employee" (mkTime 2022 January 1 0)
       (-1000) (mkVestingSchedule 12 48 "linear"))
    (mkTime 2023 January 1 0) = Err (ErrInvalidTotalUnits (-1000)).
Proof. vm_compute. reflexivity. Qed.

(** ** Properties of the calendar helpers *)

Section MonthsBetween.

(** The loop as Go runs it: one test of the condition, one step. *)
Lemma monthsBetween_loop_step start end_ months :
  monthsBetween_loop start end_ months =
  if Before start end_
  then monthsBetween_loop (AddDate_months start 1) end_ (months + 1)
  else months.
Proof.
  rewrite monthsBetween_loop_equation_1.
  destruct (inspect (Before start end_)) as [[|] Hb].
  - rewrite monthsBetween_loop_clause_1_equation_1, Hb. reflexivity.
  - rewrite monthsBetween_loop_clause_1_equation_2, Hb. reflexivity.
Qed.

(** The counter only grows. *)
Lemma monthsBetween_loop_lower start end_ months :
  months <= monthsBetween_loop start end_ months.
Proof.
  funelim (monthsBetween_loop start end_ months); lia.
Qed.

(** [Before] is a strict order that a later end point preserves. *)
Lemma Before_le_trans s e1 e2 :
  Before s e1 = true -> Before e2 e1 = false -> Before s e2 = true.
Proof.
  unfold Before. intros H1 H2.
  apply not_true_iff_false in H2.
  rewrite !orb_true_iff, !andb_true_iff, !Z.ltb_lt, !Z.eqb_eq in *. lia.
Qed.

Lemma monthsBetween_loop_mono (n : nat) :
  forall start end1 end2 months,
    (Z.to_nat (month_index end1 - month_index start + 1) < n)%nat ->
    Before end2 end1 = false ->
    monthsBetween_loop start end1 months <= monthsBetween_loop start end2 months.
Proof.
  induction n as [| n IH]; intros start end1 end2 months Hn Hle; [lia |].
  rewrite (monthsBetween_loop_step start end1).
  destruct (Before start end1) eqn:Hb.
  - rewrite (monthsBetween_loop_step start end2).
    rewrite (Before_le_trans _ _ _ Hb Hle).
    apply IH; [| exact Hle].
    pose proof (Before_month_index _ _ Hb).
    pose proof (month_index_AddDate_months start 1). lia.
  - apply monthsBetween_loop_lower.
Qed.

End MonthsBetween.

(** C9. [monthsBetween d d] is 0, [monthsBetween start end_] is 0 whenever
    [start] is not before [end_], and for a fixed [start] the count does not
    decrease when the end point moves later. *)
Theorem monthsBetween_zero_and_monotone :
  (forall d, monthsBetween d d = 0) /\
  (forall start end_, Before start end_ = false -> monthsBetween start end_ = 0) /\
  (forall start end1 end2,
      Before end2 end1 = false ->
      monthsBetween start end1 <= monthsBetween start end2).
Proof.
  unfold monthsBetween. repeat split.
  - intros d. rewrite monthsBetween_loop_step, Before_irrefl. reflexivity.
  - intros start end_ H. rewrite monthsBetween_loop_step, H. reflexivity.
  - intros start end1 end2 H.
    eapply monthsBetween_loop_mono; [| exact H]. apply Nat.lt_succ_diag_r.
Qed.

Lemma monthsBetween_zero_and_monotone_witness :
  monthsBetween (mkTime 2023 January 15 0) (mkTime 2023 January 15 0) = 0 /\
  monthsBetween (mkTime 2024 January 1 0) (mkTime 2023 January 1 0) = 0 /\
  monthsBetween (mkTime 2021 January 1 0) (mkTime 2022 June 10 0) <=
  monthsBetween (mkTime 2021 January 1 0) (mkTime 2023 January 1 0).
Proof.
  destruct monthsBetween_zero_and_monotone as (H1 & H2 & H3).
  split; [apply H1 | split; [apply H2; reflexivity | apply H3; reflexivity]].
Defined.

(** ** The calculator *)

(** C6. Before the cliff nothing is vested and the next vest date is the
    cliff date, whatever the policy and the as-of date. *)
Theorem calculateVesting_before_cliff (employee : Employee) (asOfDate : Time) :
  0 < TotalUnits employee ->
  monthsBetween (StartDate employee) asOfDate < CliffMonths (Schedule employee) ->
  calculateVesting employee asOfDate =
  Ok {| EmployeeID := ID employee;
        VestedUnits := 0;
        UnvestedUnits := TotalUnits employee;
        NextVestDate :=
          addMonths (StartDate employee) (CliffMonths (Schedule employee));
        AsOfDate := asOfDate |}.
Proof.
  intros HT Hc. unfold calculateVesting.
  destruct (Z.leb_spec (TotalUnits employee) 0); [lia |].
  destruct (Z.ltb_spec (monthsBetween (StartDate employee) asOfDate)
              (CliffMonths (Schedule employee))); [reflexivity | lia].
Qed.

Lemma calculateVesting_before_cliff_witness :
  let employee :=
    mkEmployee "emp1" "Pre-cliff Employee" (mkTime 2023 January 1 0) 48000
      (mkVestingSchedule 12 48 "linear") in
  let asOfDate := mkTime 2023 November 1 0 in
  calculateVesting employee asOfDate =
  Ok {| EmployeeID := "emp1";
        VestedUnits := 0;
        UnvestedUnits := 48000;
        NextVestDate := mkTime 2024 January 1 0;
        AsOfDate := asOfDate |}.
Proof.
  intros employee asOfDate.
  rewrite (calculateVesting_before_cliff employee asOfDate).
  - reflexivity.
  - simpl. lia.
  - vm_compute. reflexivity.
Defined.

(** C10. A schedule accepted by [ValidateSchedule] has a strictly positive
    divisor [vestingMonthsAfterCliff], equal to the exact difference of the
    two lengths, so the linear policy never divides by zero. *)
Theorem validated_schedule_divisor_positive (employee : Employee) :
  ValidateSchedule (Schedule employee) = None ->
  0 < TotalUnits employee ->
  GoInt.in_range (CliffMonths (Schedule employee)) ->
  GoInt.in_range (VestingMonths (Schedule employee)) ->
  0 < vestingMonthsAfterCliff (Schedule employee) /\
  vestingMonthsAfterCliff (Schedule employee) =
  VestingMonths (Schedule employee) - CliffMonths (Schedule employee).
Proof.
  unfold ValidateSchedule, vestingMonthsAfterCliff, GoInt.sub.
  intros Hv _ Hc Hm.
  destruct (Z.ltb_spec (CliffMonths (Schedule employee)) 0); [discriminate |].
  destruct (Z.leb_spec (VestingMonths (Schedule employee))
              (CliffMonths (Schedule employee))); [discriminate |].
  rewrite GoInt.wrap_id; [lia |].
  unfold GoInt.in_range, GoInt.min_int, GoInt.max_int in *. lia.
Qed.

Lemma validated_schedule_divisor_positive_witness :
  0 < vestingMonthsAfterCliff (mkVestingSchedule 12 48 "linear") /\
  vestingMonthsAfterCliff (mkVestingSchedule 12 48 "linear") = 48 - 12.
Proof.
  apply (validated_schedule_divisor_positive
           (mkEmployee "emp001" "Alice Johnson" (mkTime 2021 January 1 0) 48000
              (mkVestingSchedule 12 48 "linear"))).
  - reflexivity.
  - simpl. lia.
  - unfold GoInt.in_range, GoInt.min_int, GoInt.max_int. simpl. lia.
  - unfold GoInt.in_range, GoInt.min_int, GoInt.max_int. simpl. lia.
Defined.

Section Backloaded.

(** The loop adds the entries of [rest] with index [i] to [yearsVested]. *)
Lemma sum_tranches_take rest :
  forall i yearsVested totalPercent,
    sum_tranches rest i yearsVested totalPercent =
    foldl Float64.add totalPercent
      (take (Z.to_nat (yearsVested - i + 1)) rest).
Proof.
  induction rest as [| p rest IH]; intros i y acc; simpl.
  - rewrite take_nil. reflexivity.
  - destruct (Z.leb_spec i y) as [Hle | Hgt].
    + rewrite IH.
      replace (Z.to_nat (y - i + 1)) with (S (Z.to_nat (y - (i + 1) + 1))) by lia.
      reflexivity.
    + replace (Z.to_nat (y - i + 1)) with 0%nat by lia. reflexivity.
Qed.

Lemma sum_tranches_percentages yearsVested :
  sum_tranches percentages 0 yearsVested Float64.zero =
  foldl Float64.add Float64.zero
    (take (Z.to_nat (Z.min yearsVested 3 + 1)) percentages).
Proof.
  rewrite sum_tranches_take. f_equal.
  destruct (Z.le_gt_cases yearsVested 3) as [Hle | Hgt].
  - do 2 f_equal. lia.
  - rewrite !take_ge; [reflexivity | |]; simpl; lia.
Qed.

(** The index of the partial year is inside [percentages] when it is read. *)
Lemma current_year_index_in_range elapsed :
  GoInt.quo elapsed 12 < Z.of_nat (length percentages) ->
  0 < GoInt.rem elapsed 12 ->
  (Z.to_nat (GoInt.quo elapsed 12) < length percentages)%nat /\
  0 <= GoInt.quo elapsed 12.
Proof.
  unfold GoInt.quo, GoInt.rem. simpl. intros Hq Hr.
  assert (0 <= elapsed) as Hpos.
  { destruct (Z.le_gt_cases 0 elapsed) as [|Hneg]; [assumption |].
    pose proof (Z.rem_nonpos elapsed 12 ltac:(lia) ltac:(lia)). lia. }
  pose proof (Z.quot_pos elapsed 12 Hpos ltac:(lia)). lia.
Qed.

Lemma backloaded_totalPercent_closed_form elapsed :
  backloaded_totalPercent elapsed =
  spec_backloaded_totalPercent (GoInt.quo elapsed 12) (GoInt.rem elapsed 12).
Proof.
  unfold backloaded_totalPercent, spec_backloaded_totalPercent.
  rewrite sum_tranches_percentages. reflexivity.
Qed.

End Backloaded.

(** C3. Past the cliff, the backloaded policy vests
    [floor (totalUnits * totalPercent)], where [totalPercent] sums the
    tranches of index 0 to [fullYears] (index 3 at most) and adds
    [percentages[fullYears] * remainderMonths / 12] exactly when
    [fullYears < 4] and [remainderMonths > 0]; with no remainder there is
    no partial-year addition. *)
Theorem backloaded_vested_formula (employee : Employee) (asOfDate : Time) :
  0 < TotalUnits employee ->
  VestingType (Schedule employee) = "backloaded" ->
  CliffMonths (Schedule employee) <= monthsBetween (StartDate employee) asOfDate ->
  let elapsed :=
    GoInt.sub (monthsBetween (StartDate employee) asOfDate)
              (CliffMonths (Schedule employee)) in
  let fullYears := GoInt.quo elapsed 12 in
  let remainderMonths := GoInt.rem elapsed 12 in
  let totalPercent := spec_backloaded_totalPercent fullYears remainderMonths in
  (remainderMonths = 0 ->
   totalPercent =
   foldl Float64.add Float64.zero
     (take (Z.to_nat (Z.min fullYears 3 + 1)) percentages)) /\
  exists res,
    calculateVesting employee asOfDate = Ok res /\
    VestedUnits res =
    Float64.to_int
      (Float64.floor
         (Float64.mul (Float64.of_int (TotalUnits employee)) totalPercent)).
Proof.
  intros HT Hty Hc elapsed fullYears remainderMonths totalPercent. split.
  - intros Hr. unfold totalPercent, spec_backloaded_totalPercent.
    rewrite Hr, andb_false_r. reflexivity.
  - unfold calculateVesting.
    destruct (Z.leb_spec (TotalUnits employee) 0); [lia |].
    destruct (Z.ltb_spec (monthsBetween (StartDate employee) asOfDate)
                (CliffMonths (Schedule employee))); [lia |].
    rewrite Hty. simpl String.eqb. cbv iota.
    eexists. split; [reflexivity |]. simpl VestedUnits.
    unfold backloaded_vested.
    rewrite backloaded_totalPercent_closed_form. reflexivity.
Qed.

Lemma backloaded_vested_formula_witness :
  exists res,
    calculateVesting
      (mkEmployee "back2" "Mid Year 2 Employee" (mkTime 2021 January 1 0) 40000
         (mkVestingSchedule 12 48 "backloaded"))
      (mkTime 2023 July 1 0) = Ok res /\
    VestedUnits res = 16000.
Proof.
  destruct (backloaded_vested_formula
              (mkEmployee "back2" "Mid Year 2 Employee"
                 (mkTime 2021 January 1 0) 40000
                 (mkVestingSchedule 12 48 "backloaded"))
              (mkTime 2023 July 1 0)) as [_ (res & Hres & Hvested)].
  - simpl. lia.
  - reflexivity.
  - apply Z.leb_le. vm_compute. reflexivity.
  - exists res. split; [exact Hres |].
    rewrite Hvested. vm_compute. reflexivity.
Defined.

(** C2. At the end of the first year past the cliff the loop has already
    added the second tranche: the employee of the test "End of year 1" gets
    12000 units of 40000 (30%), not 4000, and a grant of 48000 gets 14400. *)
Theorem backloaded_end_of_year_one_vests_30_percent :
  let asOfDate := mkTime 2023 January 1 0 in
  let back1 (totalUnits : Z) :=
    mkEmployee "back1" "Year 1 Employee" (mkTime 2021 January 1 0) totalUnits
      (mkVestingSchedule 12 48 "backloaded") in
  monthsBetween (mkTime 2021 January 1 0) asOfDate = 24 /\
  calculateVesting (back1 40000) asOfDate =
  Ok {| EmployeeID := "back1"; VestedUnits := 12000; UnvestedUnits := 28000;
        NextVestDate := mkTime 2023 February 1 0; AsOfDate := asOfDate |} /\
  calculateVesting (back1 48000) asOfDate =
  Ok {| EmployeeID := "back1"; VestedUnits := 14400; UnvestedUnits := 33600;
        NextVestDate := mkTime 2023 February 1 0; AsOfDate := asOfDate |}.
Proof. vm_compute. repeat split. Qed.

(** C4. A linear grant of 123 units over 30 months after a 6-month cliff,
    39 months after the start: the rounded monthly rate times 30 is just
    below 123, and the conversion to [int] drops a unit. *)
Theorem linear_fully_vested_drops_a_unit :
  let employee :=
    mkEmployee "emp003" "Carol Davis" (mkTime 2022 March 15 0) 123
      (mkVestingSchedule 6 36 "linear") in
  let asOfDate := mkTime 2025 June 1 0 in
  ValidateSchedule (Schedule employee) = None /\
  monthsBetween (StartDate employee) asOfDate = 39 /\
  calculateVesting employee asOfDate =
  Ok {| EmployeeID := "emp003"; VestedUnits := 122; UnvestedUnits := 1;
        NextVestDate := mkTime 2025 July 1 0; AsOfDate := asOfDate |}.
Proof. vm_compute. repeat split. Qed.

(** C5. In the fourth year past the cliff the backloaded loop has summed
    all four tranches and the partial year is added on top: 49 months
    after the start a grant of 40000 has 41333 vested units and -1333
    unvested ones. *)
Theorem backloaded_fourth_year_vests_more_than_granted :
  let employee :=
    mkEmployee "back4" "Fully Vested Employee" (mkTime 2019 January 1 0) 40000
      (mkVestingSchedule 12 48 "backloaded") in
  let asOfDate := mkTime 2023 February 1 0 in
  ValidateSchedule (Schedule employee) = None /\
  monthsBetween (StartDate employee) asOfDate = 49 /\
  calculateVesting employee asOfDate =
  Ok {| EmployeeID := "back4"; VestedUnits := 41333; UnvestedUnits := -1333;
        NextVestDate := GoTime.zero; AsOfDate := asOfDate |}.
Proof. vm_compute. repeat split. Qed.

(** The unvested count is always the grant minus the vested count. *)
Lemma calculateVesting_unvested employee asOfDate res :
  GoInt.in_range (TotalUnits employee) ->
  calculateVesting employee asOfDate = Ok res ->
  UnvestedUnits res = GoInt.sub (TotalUnits employee) (VestedUnits res).
Proof.
  intros Hr. unfold calculateVesting.
  destruct (TotalUnits employee <=? 0); [discriminate |].
  destruct (_ <? CliffMonths _); intros [= <-]; simpl; [| reflexivity].
  unfold GoInt.sub. rewrite Z.sub_0_r. symmetry. now apply GoInt.wrap_id.
Qed.


(** ** The result cache *)

Lemma GetResult_run (employeeID : string) (cache : gmap string VestingResult) :
  GetResult employeeID cache =
  (cache !! employeeID, cache, [EvLock; EvMapRead employeeID; EvUnlock]).
Proof. reflexivity. Qed.

Section GetBatchResults.

Variable cache : gmap string VestingResult.

Lemma GetBatchResults_loop_cons id rest results :
  GetBatchResults_loop (id :: rest) results cache =
  match cache !! id with
  | Some res =>
      let '(out, cache', tr) :=
        GetBatchResults_loop rest (<[id := res]> results) cache in
      (out, cache', [EvLock; EvMapRead id; EvUnlock] ++ tr)
  | None =>
      (Err (ErrResultNotFound id), cache, [EvLock; EvMapRead id; EvUnlock])
  end.
Proof.
  simpl. unfold mbind, M_bind at 1. rewrite GetResult_run.
  destruct (cache !! id); [| reflexivity].
  destruct (GetBatchResults_loop rest _ cache) as [[out c'] tr]. reflexivity.
Qed.

Lemma GetBatchResults_loop_missing pre :
  forall id post results,
    (forall x, x ∈ pre -> is_Some (cache !! x)) ->
    cache !! id = None ->
    (GetBatchResults_loop (pre ++ id :: post) results cache).1.1 =
    Err (ErrResultNotFound id).
Proof.
  induction pre as [| p pre IH]; intros id post results Hpre Hid.
  - simpl app. rewrite GetBatchResults_loop_cons, Hid. reflexivity.
  - rewrite <- app_comm_cons, GetBatchResults_loop_cons.
    destruct (Hpre p) as [res ->]; [left |].
    specialize (IH id post (<[p := res]> results)).
    destruct (GetBatchResults_loop _ _ cache) as [[out c'] tr]. simpl in *.
    apply IH; [| exact Hid]. intros x Hx. apply Hpre. now right.
Qed.

Lemma GetBatchResults_loop_present ids :
  forall results,
    (forall x, x ∈ ids -> is_Some (cache !! x)) ->
    exists m,
      (GetBatchResults_loop ids results cache).1.1 = Ok m /\
      forall x, m !! x = if decide (x ∈ ids) then cache !! x else results !! x.
Proof.
  induction ids as [| id ids IH]; intros results Hall.
  - exists results. split; [reflexivity |].
    intros x. destruct (decide (x ∈ [])) as [Hx |]; [| reflexivity].
    inversion Hx.
  - rewrite GetBatchResults_loop_cons.
    destruct (Hall id) as [res Hres]; [left |]. rewrite Hres.
    destruct (IH (<[id := res]> results)) as (m & Hm & Hlook).
    { intros x Hx. apply Hall. now right. }
    destruct (GetBatchResults_loop ids _ cache) as [[out c'] tr]. simpl in *.
    exists m. split; [exact Hm |].
    intros x. rewrite Hlook.
    destruct (decide (x ∈ ids)) as [Hin | Hnin].
    + rewrite decide_True by now right. reflexivity.
    + destruct (decide (x = id)) as [-> | Hne].
      * rewrite decide_True by left. rewrite lookup_insert_eq. now rewrite Hres.
      * rewrite lookup_insert_ne by congruence.
        rewrite decide_False; [reflexivity |].
        intros Hx. apply elem_of_cons in Hx as [? | ?]; contradiction.
Qed.

End GetBatchResults.

(** C8. [GetBatchResults] fails with the not-found error that names the
    first requested identifier without a cached result; when every
    requested identifier is cached it returns a map whose keys are exactly
    the requested identifiers, each bound to its cached result. *)
Theorem GetBatchResults_first_missing_or_all
    (employeeIDs : list string) (cache : gmap string VestingResult) :
  (forall pre id post,
      employeeIDs = pre ++ id :: post ->
      (forall x, x ∈ pre -> is_Some (cache !! x)) ->
      cache !! id = None ->
      (GetBatchResults employeeIDs cache).1.1 = Err (ErrResultNotFound id)) /\
  ((forall x, x ∈ employeeIDs -> is_Some (cache !! x)) ->
   exists results,
     (GetBatchResults employeeIDs cache).1.1 = Ok results /\
     dom results = list_to_set employeeIDs /\
     forall x, x ∈ employeeIDs -> results !! x = cache !! x).
Proof.
  unfold GetBatchResults. split.
  - intros pre id post -> Hpre Hid.
    now apply GetBatchResults_loop_missing.
  - intros Hall.
    destruct (GetBatchResults_loop_present cache employeeIDs ∅ Hall)
      as (m & Hm & Hlook).
    exists m. split; [exact Hm |]. split.
    + apply set_eq. intros x.
      rewrite elem_of_dom, elem_of_list_to_set, Hlook.
      destruct (decide (x ∈ employeeIDs)) as [Hin | Hnin].
      * split; [intros _; exact Hin | intros _; now apply Hall].
      * rewrite lookup_empty. split; [intros [? ?]; discriminate | contradiction].
    + intros x Hx. rewrite Hlook. now rewrite decide_True.
Qed.

Lemma GetBatchResults_first_missing_or_all_witness :
  let cache : gmap string VestingResult :=
    <["batch1" := mkVestingResult "batch1" 3333 6667 (mkTime 2023 February 1 0)
                    (mkTime 2023 January 1 0)]> ∅ in
  (GetBatchResults ["batch1"; "missing_employee"] cache).1.1 =
  Err (ErrResultNotFound "missing_employee") /\
  exists results,
    (GetBatchResults ["batch1"] cache).1.1 = Ok results /\
    dom results = list_to_set ["batch1"] /\
    forall x, x ∈ ["batch1"] -> results !! x = cache !! x.
Proof.
  intros cache. split.
  - apply (proj1 (GetBatchResults_first_missing_or_all
                    ["batch1"; "missing_employee"] cache)
             ["batch1"] "missing_employee" []).
    + reflexivity.
    + intros x Hx. apply list_elem_of_singleton in Hx as ->.
      vm_compute. eexists. reflexivity.
    + vm_compute. reflexivity.
  - apply (proj2 (GetBatchResults_first_missing_or_all ["batch1"] cache)).
    intros x Hx. apply list_elem_of_singleton in Hx as ->.
    vm_compute. eexists. reflexivity.
Defined.


(** ** Batch processing *)

Section Workers.

Variable asOfDate : Time.

Lemma run_workers_run order :
  forall errors cache,
    run_workers order asOfDate errors cache =
    (errors ++ sent_errors asOfDate order, written_cache asOfDate order cache, worker_events asOfDate order).
Proof.
  induction order as [| e order IH]; intros errors cache.
  - simpl. unfold mret, M_ret. now rewrite app_nil_r.
  - simpl. unfold mbind, M_bind, worker.
    destruct (calculateVesting e asOfDate) as [res | err]; simpl;
      rewrite IH; simpl; [now rewrite app_nil_r |].
    now rewrite <- app_assoc.
Qed.

Lemma ProcessBatch_run order cache :
  ProcessBatch order asOfDate cache =
  (head (sent_errors asOfDate order), written_cache asOfDate order cache, worker_events asOfDate order).
Proof.
  unfold ProcessBatch, mbind, M_bind. rewrite run_workers_run. simpl.
  now rewrite app_nil_r.
Qed.

Lemma elem_of_sent_errors order x :
  x ∈ sent_errors asOfDate order <->
  exists e, e ∈ order /\ calculateVesting e asOfDate = Err x.
Proof.
  unfold sent_errors. rewrite list_elem_of_omap. split.
  - intros (e & He & Hx). exists e. split; [exact He |].
    destruct (calculateVesting e asOfDate); congruence.
  - intros (e & He & Hx). exists e. split; [exact He |]. now rewrite Hx.
Qed.

End Workers.

(** ** Batch processing with concurrent workers *)

(** Once the program is stopped it stays stopped; a schedule can be run in
    two parts. *)
Lemma run_schedule_app asOfDate s1 s2 b :
  run_schedule asOfDate (s1 ++ s2) b =
  match run_schedule asOfDate s1 b with
  | Some b' => run_schedule asOfDate s2 b'
  | None => None
  end.
Proof.
  revert b. induction s1 as [| i s1 IH]; intros b; simpl; [reflexivity |].
  destruct (worker_step asOfDate i b); [apply IH | reflexivity].
Qed.

(** C7. A batch of two employees whose calculations succeed and one whose
    calculation fails: when the second worker starts its map assignment
    while the first is inside its own, the program is stopped by the
    runtime, so the call returns no error and nothing is promised about
    the cache; when each worker finishes before the next starts, the call
    returns the error and both results are cached. *)
Theorem ProcessBatch_overlapping_writes_abort :
  let asOfDate := mkTime 2023 January 1 0 in
  let batch1 :=
    mkEmployee "batch1" "Batch Employee 1" (mkTime 2021 January 1 0) 10000
      (mkVestingSchedule 12 48 "linear") in
  let batch2 :=
    mkEmployee "batch2" "Batch Employee 2" (mkTime 2021 June 1 0) 20000
      (mkVestingSchedule 12 48 "linear") in
  let zero :=
    mkEmployee "zero_units" "Zero Units Employee" (mkTime 2022 January 1 0) 0
      (mkVestingSchedule 12 48 "linear") in
  (exists res1 res2,
      calculateVesting batch1 asOfDate = Ok res1 /\
      calculateVesting batch2 asOfDate = Ok res2) /\
  calculateVesting zero asOfDate = Err (ErrInvalidTotalUnits 0) /\
  ProcessBatch_goroutines [batch1; batch2; zero] asOfDate
    [0; 1; 0; 1; 2]%nat ∅ = Aborted /\
  exists results,
    ProcessBatch_goroutines [batch1; batch2; zero] asOfDate
      [0; 0; 1; 1; 2]%nat ∅ =
    Returned (Some (ErrInvalidTotalUnits 0)) results /\
    is_Some (results !! "batch1") /\ is_Some (results !! "batch2").
Proof.
  vm_compute. split_and!; try reflexivity.
  - eexists _, _. split; reflexivity.
  - eexists. split_and!; [reflexivity | eexists; reflexivity ..].
Qed.

Section Goroutines.

Variable employees : list Employee.
Variable asOfDate : Time.
Variable cache : gmap string VestingResult.

Local Abbreviation Inv := (batch_invariant employees asOfDate cache).

Lemma batch_invariant_start :
  Inv (mkBatch cache false [] (GStart <$> employees)).
Proof.
  unfold batch_invariant. simpl. split_and!.
  - intros i. rewrite list_lookup_fmap.
    destruct (employees !! i); reflexivity.
  - discriminate.
  - intros x. split; [intros H; inversion H |].
    intros (i & e & _ & H & _). rewrite list_lookup_fmap in H.
    destruct (employees !! i); discriminate H.
  - intros id. left. split; [| reflexivity].
    intros (i & e & res & _ & H & _). rewrite list_lookup_fmap in H.
    destruct (employees !! i); discriminate H.
Qed.

Lemma lookup_insert_goroutine (ws : list goroutine) i k g g0 :
  ws !! i = Some g0 ->
  <[i := g]> ws !! k = if decide (k = i) then Some g else ws !! k.
Proof.
  intros Hi. destruct (decide (k = i)) as [-> | Hne].
  - apply list_lookup_insert_eq. now apply lookup_lt_Some in Hi.
  - now apply list_lookup_insert_ne.
Qed.

Lemma batch_invariant_step i b b' :
  Inv b -> worker_step asOfDate i b = Some b' -> Inv b'.
Proof.
  intros (Hw & Hmark & Herr & Hres) Hstep. unfold worker_step in Hstep.
  pose proof (Hw i) as Hwi.
  destruct (b_workers b !! i) as [[e | id res |] |] eqn:Hi;
    [| | injection Hstep as <-; exact (conj Hw (conj Hmark (conj Herr Hres))) ..].
  - (* before its effect *)
    destruct (calculateVesting e asOfDate) as [res | x] eqn:Hc.
    + destruct (b_writing b) eqn:Hm; [discriminate |].
      injection Hstep as <-. unfold batch_invariant. simpl. split_and!.
      * intros k. rewrite (lookup_insert_goroutine _ _ _ _ _ Hi).
        destruct (decide (k = i)) as [-> | _]; [| apply Hw].
        exists e. auto.
      * intros _. exists i, (ID e), res.
        rewrite (lookup_insert_goroutine _ _ _ _ _ Hi).
        now rewrite decide_True.
      * intros x. rewrite Herr. split; intros (k & e' & He' & Hk & Hx);
          exists k, e'; split_and!; auto.
        -- rewrite (lookup_insert_goroutine _ _ _ _ _ Hi).
           rewrite decide_False; [exact Hk | congruence].
        -- rewrite (lookup_insert_goroutine _ _ _ _ _ Hi) in Hk.
           destruct (decide (k = i)); [discriminate | exact Hk].
      * intros id. destruct (Hres id) as [[Hno Hl] | (k & e' & r' & He' & Hk & H)].
        -- left. split; [| exact Hl]. intros (k & e' & r' & He' & Hk & H).
           apply Hno. exists k, e', r'. split_and!; try apply H; auto.
           rewrite (lookup_insert_goroutine _ _ _ _ _ Hi) in Hk.
           destruct (decide (k = i)); [discriminate | exact Hk].
        -- right. exists k, e', r'. split_and!; try apply H; auto.
           rewrite (lookup_insert_goroutine _ _ _ _ _ Hi).
           rewrite decide_False; [exact Hk | congruence].
    + injection Hstep as <-. unfold batch_invariant. simpl. split_and!.
      * intros k. rewrite (lookup_insert_goroutine _ _ _ _ _ Hi).
        destruct (decide (k = i)) as [-> | _]; [| apply Hw].
        now rewrite Hwi.
      * intros Hm. destruct (Hmark Hm) as (k & id & r & Hk).
        exists k, id, r. rewrite (lookup_insert_goroutine _ _ _ _ _ Hi).
        rewrite decide_False; [exact Hk | congruence].
      * intros y. rewrite elem_of_app, list_elem_of_singleton, Herr. split.
        -- intros [(k & e' & He' & Hk & Hy) | ->].
           ++ exists k, e'. split_and!; auto.
              rewrite (lookup_insert_goroutine _ _ _ _ _ Hi).
              rewrite decide_False; [exact Hk | congruence].
           ++ exists i, e. split_and!; auto.
              rewrite (lookup_insert_goroutine _ _ _ _ _ Hi).
              now rewrite decide_True.
        -- intros (k & e' & He' & Hk & Hy).
           rewrite (lookup_insert_goroutine _ _ _ _ _ Hi) in Hk.
           destruct (decide (k = i)) as [-> | _].
           ++ right. congruence.
           ++ left. exists k, e'. auto.
      * intros id. destruct (Hres id) as [[Hno Hl] | (k & e' & r' & He' & Hk & H)].
        -- left. split; [| exact Hl]. intros (k & e' & r' & He' & Hk & Hid & Hok).
           rewrite (lookup_insert_goroutine _ _ _ _ _ Hi) in Hk.
           destruct (decide (k = i)) as [-> | _]; [congruence |].
           apply Hno. exists k, e', r'. auto.
        -- right. exists k, e', r'. split_and!; try apply H; auto.
           rewrite (lookup_insert_goroutine _ _ _ _ _ Hi).
           rewrite decide_False; [exact Hk | congruence].
  - (* inside the assignment *)
    destruct Hwi as (e & He & -> & Hc).
    injection Hstep as <-. unfold batch_invariant. simpl. split_and!.
    * intros k. rewrite (lookup_insert_goroutine _ _ _ _ _ Hi).
      destruct (decide (k = i)) as [-> | _]; [| apply Hw].
      now rewrite He.
    * discriminate.
    * intros x. rewrite Herr. split; intros (k & e' & He' & Hk & Hx).
      -- exists k, e'. split_and!; auto.
         rewrite (lookup_insert_goroutine _ _ _ _ _ Hi).
         rewrite decide_False; [exact Hk | congruence].
      -- rewrite (lookup_insert_goroutine _ _ _ _ _ Hi) in Hk.
         destruct (decide (k = i)) as [-> | _]; [congruence |].
         exists k, e'. auto.
    * intros id. destruct (decide (ID e = id)) as [<- | Hne].
      -- right. exists i, e, res. split_and!; auto.
         ++ rewrite (lookup_insert_goroutine _ _ _ _ _ Hi).
            now rewrite decide_True.
         ++ apply lookup_insert_eq.
      -- rewrite lookup_insert_ne by exact Hne.
         destruct (Hres id) as [[Hno Hl] | (k & e' & r' & He' & Hk & H)].
         ++ left. split; [| exact Hl].
            intros (k & e' & r' & He' & Hk & Hid & Hok).
            rewrite (lookup_insert_goroutine _ _ _ _ _ Hi) in Hk.
            destruct (decide (k = i)) as [-> | _]; [congruence |].
            apply Hno. exists k, e', r'. auto.
         ++ right. exists k, e', r'. split_and!; try apply H; auto.
            rewrite (lookup_insert_goroutine _ _ _ _ _ Hi).
            rewrite decide_False; [exact Hk | congruence].
Qed.

Lemma batch_invariant_run schedule :
  forall b b',
    Inv b -> run_schedule asOfDate schedule b = Some b' -> Inv b'.
Proof.
  induction schedule as [| i rest IH]; intros b b' Hinv Hrun; simpl in Hrun.
  - now injection Hrun as <-.
  - destruct (worker_step asOfDate i b) as [b1 |] eqn:Hstep; [| discriminate].
    apply (IH b1); [| exact Hrun]. now apply (batch_invariant_step i b).
Qed.

(** At most one employee of the batch has a calculation that succeeds. *)
Hypothesis one_writer :
  forall i j e1 e2 res1 res2,
    employees !! i = Some e1 -> employees !! j = Some e2 ->
    calculateVesting e1 asOfDate = Ok res1 ->
    calculateVesting e2 asOfDate = Ok res2 -> i = j.

Lemma worker_step_one_writer i b :
  Inv b -> is_Some (worker_step asOfDate i b).
Proof.
  intros (Hw & Hmark & _ & _). unfold worker_step.
  pose proof (Hw i) as Hwi.
  destruct (b_workers b !! i) as [[e | id res |] |] eqn:Hi; try now eexists.
  destruct (calculateVesting e asOfDate) as [res | x] eqn:Hc; [| now eexists].
  destruct (b_writing b) eqn:Hm; [| now eexists].
  exfalso. destruct (Hmark eq_refl) as (j & id & r & Hj).
  pose proof (Hw j) as Hwj. rewrite Hj in Hwj.
  destruct Hwj as (e' & He' & _ & Hc').
  assert (i = j) as -> by (eapply one_writer; eauto).
  congruence.
Qed.

Lemma run_schedule_one_writer schedule :
  forall b, Inv b -> is_Some (run_schedule asOfDate schedule b).
Proof.
  induction schedule as [| i rest IH]; intros b Hinv; simpl; [now eexists |].
  destruct (worker_step_one_writer i b Hinv) as [b1 Hstep]. rewrite Hstep.
  apply IH. now apply (batch_invariant_step i b).
Qed.

End Goroutines.

Lemma all_done_lookup (ws : list goroutine) i g :
  forallb is_done ws = true -> ws !! i = Some g -> g = GDone.
Proof.
  intros Hall Hi. rewrite forallb_forall in Hall.
  assert (is_done g = true) as Hg.
  { apply Hall. apply list_elem_of_In. eapply list_elem_of_lookup_2. exact Hi. }
  now destruct g.
Qed.

(** X19. A batch in which at most one calculation succeeds has no two map
    writes that could meet: whatever the interleaving of the goroutines,
    the program is not stopped, and when [ProcessBatch] returns it returns
    an error exactly when a calculation failed, that error is the error of
    a failing employee, the result of the successful employee is cached
    under its identifier, and every other key of the cache is as before. *)
Theorem ProcessBatch_one_writer
    (employees : list Employee) (asOfDate : Time) (schedule : list nat)
    (cache : gmap string VestingResult) :
  (forall i j e1 e2 res1 res2,
      employees !! i = Some e1 -> employees !! j = Some e2 ->
      calculateVesting e1 asOfDate = Ok res1 ->
      calculateVesting e2 asOfDate = Ok res2 -> i = j) ->
  ProcessBatch_goroutines employees asOfDate schedule cache <> Aborted /\
  forall err results,
    ProcessBatch_goroutines employees asOfDate schedule cache =
    Returned err results ->
    (is_Some err <->
     exists e x, e ∈ employees /\ calculateVesting e asOfDate = Err x) /\
    (forall x, err = Some x ->
       exists e, e ∈ employees /\ calculateVesting e asOfDate = Err x) /\
    (forall e res, e ∈ employees -> calculateVesting e asOfDate = Ok res ->
       results !! ID e = Some res) /\
    (forall id,
       (forall e res, e ∈ employees -> ID e = id ->
          calculateVesting e asOfDate <> Ok res) ->
       results !! id = cache !! id).
Proof.
  intros Hone. unfold ProcessBatch_goroutines.
  pose proof (batch_invariant_start employees asOfDate cache) as Hstart.
  destruct (run_schedule_one_writer employees asOfDate cache Hone schedule _ Hstart)
    as [b Hrun].
  rewrite Hrun.
  destruct (batch_invariant_run employees asOfDate cache schedule _ _ Hstart Hrun)
    as (Hw & _ & Herr & Hres).
  destruct (forallb is_done (b_workers b)) eqn:Hall; [| split; discriminate].
  split; [discriminate |]. intros err results [= <- <-].
  assert (forall k e, employees !! k = Some e -> b_workers b !! k = Some GDone)
    as Hdone.
  { intros k e Hk. pose proof (Hw k) as Hwk.
    destruct (b_workers b !! k) as [g |] eqn:Hg; [| congruence].
    now rewrite (all_done_lookup _ _ _ Hall Hg). }
  assert (forall x, x ∈ b_errors b <->
            exists e, e ∈ employees /\ calculateVesting e asOfDate = Err x)
    as Herr'.
  { intros x. rewrite Herr. split.
    - intros (k & e & Hk & _ & Hx). exists e. split; [| exact Hx].
      eapply list_elem_of_lookup_2. exact Hk.
    - intros (e & He & Hx). apply list_elem_of_lookup_1 in He as [k Hk].
      exists k, e. split_and!; eauto. }
  split_and!.
  - split.
    + intros [x Hx]. apply head_Some_elem_of, Herr' in Hx as (e & He & Hx).
      now exists e, x.
    + intros (e & x & He & Hx).
      assert (x ∈ b_errors b) as Hin by (apply Herr'; now exists e).
      destruct (b_errors b) as [| y l]; [inversion Hin | now exists y].
  - intros x Hx. apply head_Some_elem_of in Hx. now apply Herr'.
  - intros e res He Hc. apply list_elem_of_lookup_1 in He as [k Hk].
    destruct (Hres (ID e)) as [[Hno _] | (k' & e' & r' & Hk' & _ & Hid & Hc' & Hl)].
    + exfalso. apply Hno. exists k, e, res. split_and!; eauto.
    + assert (k' = k) as -> by (eapply Hone; eauto).
      rewrite Hl. congruence.
  - intros id Hnone.
    destruct (Hres id) as [[_ Hl] | (k' & e' & r' & Hk' & _ & Hid & Hc' & _)];
      [exact Hl |].
    exfalso. apply (Hnone e' r'); auto.
    eapply list_elem_of_lookup_2. exact Hk'.
Qed.

Lemma ProcessBatch_one_writer_witness :
  let good :=
    mkEmployee "cache_test" "Cache Test Employee" (mkTime 2021 January 1 0)
      10000 (mkVestingSchedule 12 48 "linear") in
  let zero :=
    mkEmployee "zero_units" "Zero Units Employee" (mkTime 2022 January 1 0) 0
      (mkVestingSchedule 12 48 "linear") in
  let asOfDate := mkTime 2023 January 1 0 in
  exists err results,
    ProcessBatch_goroutines [good; zero] asOfDate [0; 1; 0]%nat ∅ =
    Returned err results /\
    (exists res, results !! "cache_test" = Some res /\ VestedUnits res = 3333) /\
    results !! "zero_units" = None.
Proof.
  intros good zero asOfDate.
  assert (exists err results,
            ProcessBatch_goroutines [good; zero] asOfDate [0; 1; 0]%nat ∅ =
            Returned err results) as (err & results & Hret).
  { vm_compute. eexists _, _. reflexivity. }
  exists err, results. split; [exact Hret |].
  destruct (ProcessBatch_one_writer [good; zero] asOfDate [0; 1; 0]%nat ∅)
    as (_ & Hall).
  - intros [| [| i]] [| [| j]] e1 e2 res1 res2 H1 H2 Hc1 Hc2;
      try reflexivity; try discriminate H1; try discriminate H2;
      injection H1 as <-; injection H2 as <-.
    + vm_compute in Hc2. discriminate Hc2.
    + vm_compute in Hc1. discriminate Hc1.
  - destruct (Hall err results Hret) as (_ & _ & Hgood & Hbad). split.
    + eexists. split.
      * apply (Hgood good); [left | vm_compute; reflexivity].
      * reflexivity.
    + rewrite (Hbad "zero_units"); [reflexivity |].
      intros e res He Hid.
      apply elem_of_cons in He as [-> | He]; [discriminate Hid |].
      apply list_elem_of_singleton in He as ->.
      intros Hc. vm_compute in Hc. discriminate Hc.
Defined.



Section Serial.

Variable asOfDate : Time.

Lemma replicate_done_snoc (n : nat) (ws : list goroutine) :
  replicate n GDone ++ GDone :: ws = replicate (S n) GDone ++ ws.
Proof. induction n as [| n IH]; simpl; [reflexivity | now rewrite IH]. Qed.

Lemma run_schedule_serial rest :
  forall (n : nat) results errors,
    run_schedule asOfDate (flat_map (fun i => [i; i]) (seq n (length rest)))
      (mkBatch results false errors (replicate n GDone ++ (GStart <$> rest))) =
    Some (mkBatch (written_cache asOfDate rest results) false
            (errors ++ sent_errors asOfDate rest)
            (replicate (n + length rest) GDone)).
Proof.
  induction rest as [| e rest IH]; intros n results errors.
  - simpl. now rewrite !app_nil_r, Nat.add_0_r.
  - assert ((replicate n GDone ++ (GStart <$> e :: rest)) !! n =
            Some (GStart e)) as Hn.
    { rewrite lookup_app_r by now rewrite length_replicate.
      now rewrite length_replicate, Nat.sub_diag. }
    assert (forall g,
              <[n := g]> (replicate n GDone ++ (GStart <$> e :: rest)) =
              replicate n GDone ++ g :: (GStart <$> rest)) as Hins.
    { intros g. rewrite insert_app_r_alt by now rewrite length_replicate.
      now rewrite length_replicate, Nat.sub_diag. }
    replace (n + length (e :: rest))%nat with (S n + length rest)%nat
      by (simpl; lia).
    change (written_cache asOfDate (e :: rest) results)
      with (written_cache asOfDate rest
              (match calculateVesting e asOfDate with
               | Ok res => <[ID e := res]> results
               | Err _ => results
               end)).
    assert (sent_errors asOfDate (e :: rest) =
            match calculateVesting e asOfDate with
            | Ok _ => sent_errors asOfDate rest
            | Err x => x :: sent_errors asOfDate rest
            end) as ->.
    { unfold sent_errors. simpl. now destruct (calculateVesting e asOfDate). }
    cbn [length seq flat_map app run_schedule].
    unfold worker_step at 1. cbn [b_workers b_results b_writing b_errors].
    rewrite Hn.
    destruct (calculateVesting e asOfDate) as [res | x].
    + rewrite Hins. unfold worker_step at 1.
      cbn [b_workers b_results b_writing b_errors].
      rewrite lookup_app_r by now rewrite length_replicate.
      rewrite length_replicate, Nat.sub_diag. cbn [lookup list_lookup].
      rewrite insert_app_r_alt by now rewrite length_replicate.
      rewrite length_replicate, Nat.sub_diag. cbn [insert list_insert].
      rewrite replicate_done_snoc. apply IH.
    + rewrite Hins. unfold worker_step at 1.
      cbn [b_workers b_results b_writing b_errors].
      rewrite lookup_app_r by now rewrite length_replicate.
      rewrite length_replicate, Nat.sub_diag. cbn [lookup list_lookup].
      rewrite replicate_done_snoc, IH. now rewrite <- app_assoc.
Qed.

Lemma all_done_replicate (n : nat) : forallb is_done (replicate n GDone) = true.
Proof. induction n; simpl; auto. Qed.

End Serial.

(** The workers run one after another are one interleaving of the
    goroutines, the one in which each goroutine finishes its assignment
    before the next starts: there the goroutines return what
    [ProcessBatch] returns and leave the cache [ProcessBatch] leaves. *)
Lemma ProcessBatch_goroutines_serial
    (order : list Employee) (asOfDate : Time)
    (cache : gmap string VestingResult) :
  ProcessBatch_goroutines order asOfDate
    (flat_map (fun i => [i; i]) (seq 0 (length order))) cache =
  Returned (ProcessBatch order asOfDate cache).1.1
           (ProcessBatch order asOfDate cache).1.2.
Proof.
  unfold ProcessBatch_goroutines.
  pose proof (run_schedule_serial asOfDate order 0 cache []) as Hrun.
  simpl in Hrun. rewrite Hrun.
  cbn [b_workers b_errors b_results]. rewrite all_done_replicate.
  now rewrite ProcessBatch_run.
Qed.

(** ** The mutex *)

Lemma GetResult_lock_discipline employeeID cache :
  lock_discipline false (GetResult employeeID cache).2 = true.
Proof. reflexivity. Qed.

Lemma ClearCache_lock_discipline cache :
  lock_discipline false (ClearCache cache).2 = true.
Proof. reflexivity. Qed.

Lemma GetBatchResults_loop_lock_discipline cache ids :
  forall results,
    lock_discipline false (GetBatchResults_loop ids results cache).2 = true.
Proof.
  induction ids as [| id ids IH]; intros results; [reflexivity |].
  rewrite GetBatchResults_loop_cons.
  destruct (cache !! id) as [res |]; [| reflexivity].
  specialize (IH (<[id := res]> results)).
  destruct (GetBatchResults_loop ids _ cache) as [[out c'] tr]. exact IH.
Qed.

(** A worker whose calculation succeeds writes the map without the lock. *)
Lemma worker_write_outside_lock employee asOfDate cache res :
  calculateVesting employee asOfDate = Ok res ->
  (worker employee asOfDate cache).2 = [EvMapWrite (ID employee) res] /\
  lock_discipline false (worker employee asOfDate cache).2 = false.
Proof.
  intros Hc. unfold worker. rewrite Hc. split; reflexivity.
Qed.

(** C1. [ProcessBatch] on the single employee of the cache test: the only
    event is the map write of the worker, performed while the mutex is not
    held, whereas [GetResult] brackets its read with the lock. *)
Theorem ProcessBatch_writes_map_outside_lock :
  let employee :=
    mkEmployee "cache_test" "Cache Test Employee" (mkTime 2021 January 1 0)
      10000 (mkVestingSchedule 12 48 "linear") in
  let asOfDate := mkTime 2023 January 1 0 in
  let tr := (ProcessBatch [employee] asOfDate ∅).2 in
  tr = [EvMapWrite "cache_test"
          {| EmployeeID := "cache_test"; VestedUnits := 3333;
             UnvestedUnits := 6667; NextVestDate := mkTime 2023 February 1 0;
             AsOfDate := asOfDate |}] /\
  lock_discipline false tr = false /\
  lock_discipline false (GetResult "cache_test" ∅).2 = true.
Proof. vm_compute. repeat split. Qed.

(** ** Further properties of the calendar helpers *)

Section Calendar.


(** [Before] compares the month count first, then the day and the time of
    day. *)
Lemma Before_month_index_lex t u :
  Before t u =
  (month_index t <? month_index u) ||
  ((month_index t =? month_index u) &&
   ((Day t <? Day u) || ((Day t =? Day u) && (Nanos t <? Nanos u)))).
Proof.
  unfold Before, month_index.
  pose proof (Month_to_Z_range (Month_ t)) as Ht.
  pose proof (Month_to_Z_range (Month_ u)) as Hu.
  apply eq_true_iff_eq.
  rewrite !orb_true_iff, !andb_true_iff, !orb_true_iff, !andb_true_iff,
    !Z.ltb_lt, !Z.eqb_eq. lia.
Qed.

Lemma month_index_lt_Before t u :
  month_index t < month_index u -> Before t u = true.
Proof.
  intros H. rewrite Before_month_index_lex.
  apply orb_true_iff. left. now apply Z.ltb_lt.
Qed.

(** Up to day 28 a month is added without touching the day. *)
Lemma AddDate_months_small_day t n :
  Day t <= 28 ->
  month_index (AddDate_months t n) = month_index t + n /\
  Day (AddDate_months t n) = Day t /\
  Nanos (AddDate_months t n) = Nanos t.
Proof.
  intros Hd. unfold AddDate_months, Date, norm.
  set (m0 := (Month_to_Z (Month_ t) + n - 1) mod 12).
  set (y := Year t + (Month_to_Z (Month_ t) + n - 1) / 12).
  pose proof (daysIn_range (Month_of_index m0) y) as Hr.
  destruct (Z.ltb_spec (daysIn (Month_of_index m0) y) (Day t)); [lia |].
  unfold month_index. simpl.
  pose proof (Z.mod_pos_bound (Month_to_Z (Month_ t) + n - 1) 12 ltac:(lia)).
  pose proof (Z.div_mod (Month_to_Z (Month_ t) + n - 1) 12 ltac:(lia)).
  rewrite Month_of_index_to_Z by (subst m0; lia).
  subst m0 y. repeat split; lia.
Qed.


Lemma monthsBetween_loop_small_day (n : nat) :
  forall start end_ months,
    (Z.to_nat (month_index end_ - month_index start + 1) < n)%nat ->
    Day start <= 28 ->
    monthsBetween_loop start end_ months =
    if Before start end_
    then months + (month_index end_ - month_index start) +
         (if (Day start <? Day end_) ||
             ((Day start =? Day end_) && (Nanos start <? Nanos end_))
          then 1 else 0)
    else months.
Proof.
  induction n as [| n IH]; intros start end_ months Hn Hd; [lia |].
  rewrite monthsBetween_loop_step.
  destruct (Before start end_) eqn:Hb; [| reflexivity].
  destruct (AddDate_months_small_day start 1 Hd) as (Hi & Hday & Hns).
  pose proof (Before_month_index _ _ Hb) as Hle.
  rewrite IH; [| lia | lia].
  rewrite (Before_month_index_lex (AddDate_months start 1)), Hi, Hday, Hns.
  rewrite Before_month_index_lex in Hb.
  destruct ((Day start <? Day end_) ||
            ((Day start =? Day end_) && (Nanos start <? Nanos end_))) eqn:Hlt.
  - rewrite andb_true_r in *.
    destruct (Z.ltb_spec (month_index start + 1) (month_index end_)); simpl.
    + lia.
    + destruct (Z.eqb_spec (month_index start + 1) (month_index end_)); lia.
  - rewrite andb_false_r, orb_false_r in *. apply Z.ltb_lt in Hb.
    destruct (Z.ltb_spec (month_index start + 1) (month_index end_)); simpl; lia.
Qed.

End Calendar.


(** X2. For a start on day 28 or earlier the count has a closed form: the
    difference of the month counts, plus one when the day and time of
    [end_] are later in their month than those of [start].  A month that
    has only begun is counted in full. *)
Theorem monthsBetween_counts_started_months (start end_ : Time) :
  Day start <= 28 ->
  monthsBetween start end_ =
  if Before start end_
  then (month_index end_ - month_index start) +
       (if (Day start <? Day end_) ||
           ((Day start =? Day end_) && (Nanos start <? Nanos end_))
        then 1 else 0)
  else 0.
Proof.
  intros Hd. unfold monthsBetween.
  rewrite (monthsBetween_loop_small_day _ start end_ 0 (Nat.lt_succ_diag_r _) Hd).
  destruct (Before start end_); reflexivity.
Qed.

Lemma monthsBetween_counts_started_months_witness :
  monthsBetween (mkTime 2023 January 15 0) (mkTime 2023 February 10 0) = 1.
Proof.
  rewrite (monthsBetween_counts_started_months
             (mkTime 2023 January 15 0) (mkTime 2023 February 10 0)).
  - reflexivity.
  - simpl. lia.
Defined.

(** X3. Within the supported years, [addMonths] maps a normalised time to
    a normalised time and keeps the time of day. *)
Theorem addMonths_valid (t : Time) (months : Z) :
  in_scope t -> months_in_scope months ->
  valid (addMonths t months) /\ Nanos (addMonths t months) = Nanos t.
Proof.
  intros [Hv _] _. split; [now apply AddDate_months_valid |].
  unfold addMonths, AddDate_months, Date, norm.
  destruct (_ <? _); reflexivity.
Qed.

Lemma addMonths_valid_witness :
  valid (addMonths (mkTime 2023 January 31 3600000000000) 1) /\
  Nanos (addMonths (mkTime 2023 January 31 3600000000000) 1) = 3600000000000.
Proof.
  apply (addMonths_valid (mkTime 2023 January 31 3600000000000) 1).
  - unfold in_scope, valid, max_year. simpl. lia.
  - unfold months_in_scope, max_year. lia.
Defined.

(** X4. Within the supported years, [addMonths t n] with [n >= 1] is
    strictly after [t]: the cliff date of a schedule with a cliff is after
    the start date. *)
Theorem addMonths_strictly_later (t : Time) (months : Z) :
  in_scope t -> months_in_scope months ->
  1 <= months -> Before t (addMonths t months) = true.
Proof.
  intros _ _ Hn. apply month_index_lt_Before.
  pose proof (month_index_AddDate_months t months). unfold addMonths. lia.
Qed.

Lemma addMonths_strictly_later_witness :
  Before (mkTime 2023 January 31 0) (addMonths (mkTime 2023 January 31 0) 12) = true.
Proof.
  apply addMonths_strictly_later.
  - unfold in_scope, valid, max_year. simpl. lia.
  - unfold months_in_scope, max_year. lia.
  - lia.
Defined.

(** X5. Within the supported years and on days 1 to 28, adding months
    composes: [a] months and then [b] months are [a + b] months, and adding
    no month changes nothing. *)
Theorem addMonths_compose (t : Time) (a b : Z) :
  in_scope t -> Day t <= 28 ->
  months_in_scope a -> months_in_scope b -> months_in_scope (a + b) ->
  addMonths (addMonths t a) b = addMonths t (a + b) /\ addMonths t 0 = t.
Proof.
  intros _ Hd _ _ _. unfold addMonths.
  assert (forall n, AddDate_months t n =
            mkTime (Year t + (Month_to_Z (Month_ t) + n - 1) / 12)
                   (Month_of_index ((Month_to_Z (Month_ t) + n - 1) mod 12))
                   (Day t) (Nanos t)) as Hadd.
  { intros n. unfold AddDate_months, Date, norm.
    match goal with |- context [daysIn ?m ?y <? _] =>
      pose proof (daysIn_range m y);
      destruct (Z.ltb_spec (daysIn m y) (Day t)); [lia | reflexivity] end. }
  split.
  - rewrite (Hadd a).
    unfold AddDate_months at 1, Date, norm. simpl.
    match goal with |- context [daysIn ?m ?y <? _] =>
      pose proof (daysIn_range m y);
      destruct (Z.ltb_spec (daysIn m y) (Day t)); [lia |] end.
    rewrite (Hadd (a + b)).
    pose proof (Month_to_Z_range (Month_ t)) as Hm.
    pose proof (Z.mod_pos_bound (Month_to_Z (Month_ t) + a - 1) 12 ltac:(lia)).
    rewrite Month_of_index_to_Z by lia.
    f_equal.
    + Z.div_mod_to_equations. lia.
    + f_equal. Z.div_mod_to_equations. lia.
  - rewrite Hadd. pose proof (Month_to_Z_range (Month_ t)) as Hm.
    replace (Month_to_Z (Month_ t) + 0 - 1) with (Month_to_Z (Month_ t) - 1) by lia.
    rewrite Z.div_small, Z.mod_small, Z.add_0_r by lia.
    destruct t as [y m dd ns]. simpl. f_equal. now destruct m.
Qed.

Lemma addMonths_compose_witness :
  addMonths (addMonths (mkTime 2023 November 15 0) 5) 9 =
  addMonths (mkTime 2023 November 15 0) (5 + 9) /\
  addMonths (mkTime 2023 November 15 0) 0 = mkTime 2023 November 15 0.
Proof.
  apply addMonths_compose.
  - unfold in_scope, valid, max_year. simpl. lia.
  - simpl. lia.
  - unfold months_in_scope, max_year. lia.
  - unfold months_in_scope, max_year. lia.
  - unfold months_in_scope, max_year. lia.
Defined.

(** X6. Round trip, within the supported years: from a start on day 28 or
    earlier, the date [n] months later is exactly [n] months away. *)
Theorem monthsBetween_addMonths (start : Time) (n : Z) :
  in_scope start -> Day start <= 28 ->
  0 <= n -> months_in_scope n ->
  monthsBetween start (addMonths start n) = n.
Proof.
  intros _ Hd Hn _. rewrite monthsBetween_counts_started_months by exact Hd.
  unfold addMonths.
  destruct (AddDate_months_small_day start n Hd) as (Hi & Hday & Hns).
  rewrite Before_month_index_lex, Hi, Hday, Hns.
  rewrite !Z.ltb_irrefl, Z.eqb_refl. simpl. rewrite andb_false_r, orb_false_r.
  destruct (Z.ltb_spec (month_index start) (month_index start + n)); lia.
Qed.

Lemma monthsBetween_addMonths_witness :
  monthsBetween (mkTime 2022 March 15 0) (addMonths (mkTime 2022 March 15 0) 6) = 6.
Proof.
  apply monthsBetween_addMonths.
  - unfold in_scope, valid, max_year. simpl. lia.
  - simpl. lia.
  - lia.
  - unfold months_in_scope, max_year. lia.
Defined.

(** ** Further properties of the validator and the calculator *)

(** X7. [ValidateSchedule] accepts exactly the schedules with a cliff that
    is not negative, a vesting length above the cliff and one of the two
    policy tags. *)
Theorem ValidateSchedule_accepts_iff (schedule : VestingSchedule) :
  ValidateSchedule schedule = None <->
  0 <= CliffMonths schedule /\
  CliffMonths schedule < VestingMonths schedule /\
  (VestingType schedule = "linear" \/ VestingType schedule = "backloaded").
Proof.
  unfold ValidateSchedule.
  destruct (Z.ltb_spec (CliffMonths schedule) 0);
    [split; [discriminate | lia] |].
  destruct (Z.leb_spec (VestingMonths schedule) (CliffMonths schedule));
    [split; [discriminate | lia] |].
  destruct (String.eqb_spec (VestingType schedule) "linear") as [-> | Hl];
    [simpl; split; [intros _; auto with zarith | reflexivity] |].
  destruct (String.eqb_spec (VestingType schedule) "backloaded") as [-> | Hb];
    [simpl; split; [intros _; auto with zarith | reflexivity] |].
  simpl. split; [discriminate |]. intros (_ & _ & [? | ?]); contradiction.
Qed.

(** X8. The checks of [ValidateSchedule] are made in order: a negative
    cliff is reported first, then a vesting length that is not above the
    cliff, then an unknown policy tag, which the error carries. *)
Theorem ValidateSchedule_error (schedule : VestingSchedule) (e : error) :
  ValidateSchedule schedule = Some e <->
  (CliffMonths schedule < 0 /\ e = ErrNegativeCliff) \/
  (0 <= CliffMonths schedule /\
   VestingMonths schedule <= CliffMonths schedule /\
   e = ErrVestingNotAfterCliff) \/
  (0 <= CliffMonths schedule < VestingMonths schedule /\
   VestingType schedule <> "linear" /\ VestingType schedule <> "backloaded" /\
   e = ErrInvalidVestingType (VestingType schedule)).
Proof.
  unfold ValidateSchedule.
  destruct (Z.ltb_spec (CliffMonths schedule) 0).
  { split; [intros [= <-]; left; auto |].
    intros [[_ ->] | [(? & _) | ((? & _) & _)]]; [reflexivity | lia | lia]. }
  destruct (Z.leb_spec (VestingMonths schedule) (CliffMonths schedule)).
  { split; [intros [= <-]; right; left; auto |].
    intros [[? _] | [(_ & _ & ->) | ((_ & ?) & _)]]; [lia | reflexivity | lia]. }
  destruct (String.eqb_spec (VestingType schedule) "linear") as [Hl | Hl];
    [simpl; split; [discriminate |];
     intros [[? _] | [(_ & ? & _) | (_ & ? & _)]]; [lia | lia | contradiction] |].
  destruct (String.eqb_spec (VestingType schedule) "backloaded") as [Hb | Hb];
    [simpl; split; [discriminate |];
     intros [[? _] | [(_ & ? & _) | (_ & _ & ? & _)]]; [lia | lia | contradiction] |].
  simpl. split.
  - intros [= <-]. right. right. repeat split; auto; lia.
  - intros [[? _] | [(_ & ? & _) | (_ & _ & _ & ->)]]; [lia | lia | reflexivity].
Qed.

(** X9. [calculateVesting] fails exactly when the grant is not positive,
    with the error that carries the grant; a schedule that
    [ValidateSchedule] would reject is never a reason to fail. *)
Theorem calculateVesting_error_iff (employee : Employee) (asOfDate : Time)
    (e : error) :
  calculateVesting employee asOfDate = Err e <->
  TotalUnits employee <= 0 /\ e = ErrInvalidTotalUnits (TotalUnits employee).
Proof.
  unfold calculateVesting.
  destruct (Z.leb_spec (TotalUnits employee) 0).
  - split; [intros [= <-]; auto | intros [_ ->]; reflexivity].
  - destruct (_ <? CliffMonths _); (split; [discriminate | lia]).
Qed.

Lemma wrap_add_wrap a b : GoInt.wrap (a + GoInt.wrap b) = GoInt.wrap (a + b).
Proof.
  unfold GoInt.wrap. f_equal.
  replace (a + ((b + 2 ^ 63) mod 2 ^ 64 - 2 ^ 63) + 2 ^ 63)
    with (a + (b + 2 ^ 63) mod 2 ^ 64) by lia.
  rewrite Zplus_mod_idemp_r. f_equal. lia.
Qed.

(** X10. A result carries the employee's identifier and the as-of date, its
    vested and unvested counts add up to the grant in [int] arithmetic, and
    past the cliff the next vest date is one month after the as-of date
    while something is left to vest, and the zero time otherwise. *)
Theorem calculateVesting_result_fields (employee : Employee) (asOfDate : Time)
    (res : VestingResult) :
  GoInt.in_range (TotalUnits employee) ->
  calculateVesting employee asOfDate = Ok res ->
  EmployeeID res = ID employee /\
  AsOfDate res = asOfDate /\
  GoInt.wrap (VestedUnits res + UnvestedUnits res) = TotalUnits employee /\
  (CliffMonths (Schedule employee) <= monthsBetween (StartDate employee) asOfDate ->
   NextVestDate res =
   if VestedUnits res <? TotalUnits employee
   then addMonths asOfDate 1 else GoTime.zero).
Proof.
  intros Hr Hc.
  pose proof (calculateVesting_unvested employee asOfDate res Hr Hc) as Hu.
  assert (GoInt.wrap (VestedUnits res + UnvestedUnits res) = TotalUnits employee)
    as Hsum.
  { rewrite Hu. unfold GoInt.sub. rewrite wrap_add_wrap.
    replace (VestedUnits res + (TotalUnits employee - VestedUnits res))
      with (TotalUnits employee) by lia.
    now apply GoInt.wrap_id. }
  revert Hc. unfold calculateVesting.
  destruct (TotalUnits employee <=? 0); [discriminate |].
  destruct (Z.ltb_spec (monthsBetween (StartDate employee) asOfDate)
              (CliffMonths (Schedule employee)));
    intros [= Hres]; rewrite <- Hres in *; simpl in *;
    repeat split; auto; lia.
Qed.

Lemma calculateVesting_result_fields_witness :
  let employee :=
    mkEmployee "emp3" "Mid-vesting Employee" (mkTime 2021 January 1 0) 48000
      (mkVestingSchedule 12 48 "linear") in
  let asOfDate := mkTime 2023 January 1 0 in
  exists res,
    calculateVesting employee asOfDate = Ok res /\
    EmployeeID res = "emp3" /\
    AsOfDate res = asOfDate /\
    GoInt.wrap (VestedUnits res + UnvestedUnits res) = 48000.
Proof.
  intros employee asOfDate.
  assert (exists res, calculateVesting employee asOfDate = Ok res) as [res Hres].
  { vm_compute. eexists. reflexivity. }
  exists res. split; [exact Hres |].
  destruct (calculateVesting_result_fields employee asOfDate res)
    as (H1 & H2 & H3 & _).
  - unfold GoInt.in_range, GoInt.min_int, GoInt.max_int. simpl. lia.
  - exact Hres.
  - auto.
Defined.

(** X11. A policy tag that is neither "linear" nor "backloaded" is not
    rejected: past the cliff nothing is vested and the next vest date is
    one month after the as-of date. *)
Theorem calculateVesting_unknown_policy (employee : Employee) (asOfDate : Time) :
  0 < TotalUnits employee ->
  GoInt.in_range (TotalUnits employee) ->
  VestingType (Schedule employee) <> "linear" ->
  VestingType (Schedule employee) <> "backloaded" ->
  CliffMonths (Schedule employee) <= monthsBetween (StartDate employee) asOfDate ->
  calculateVesting employee asOfDate =
  Ok {| EmployeeID := ID employee;
        VestedUnits := 0;
        UnvestedUnits := TotalUnits employee;
        NextVestDate := addMonths asOfDate 1;
        AsOfDate := asOfDate |}.
Proof.
  intros HT Hr Hl Hb Hc. unfold calculateVesting.
  destruct (Z.leb_spec (TotalUnits employee) 0); [lia |].
  destruct (Z.ltb_spec (monthsBetween (StartDate employee) asOfDate)
              (CliffMonths (Schedule employee))); [lia |].
  apply String.eqb_neq in Hl, Hb. rewrite Hl, Hb.
  destruct (Z.ltb_spec 0 (TotalUnits employee)); [| lia].
  unfold GoInt.sub. rewrite Z.sub_0_r, GoInt.wrap_id by exact Hr. reflexivity.
Qed.

Lemma calculateVesting_unknown_policy_witness :
  let employee :=
    mkEmployee "exp" "Exponential Employee" (mkTime 2021 January 1 0) 10000
      (mkVestingSchedule 12 48 "exponential") in
  calculateVesting employee (mkTime 2023 January 1 0) =
  Ok {| EmployeeID := "exp"; VestedUnits := 0; UnvestedUnits := 10000;
        NextVestDate := addMonths (mkTime 2023 January 1 0) 1;
        AsOfDate := mkTime 2023 January 1 0 |}.
Proof.
  intros employee.
  apply (calculateVesting_unknown_policy employee (mkTime 2023 January 1 0)).
  - simpl. lia.
  - unfold GoInt.in_range, GoInt.min_int, GoInt.max_int. simpl. lia.
  - discriminate.
  - discriminate.
  - apply Z.leb_le. vm_compute. reflexivity.
Defined.

(** X12. The linear policy under a schedule that [ValidateSchedule]
    accepts: past the cliff the rounded monthly rate is multiplied by the
    months since the cliff, the vesting length after the cliff at most, and
    truncated; no subtraction wraps.  From [VestingMonths] months on the
    result no longer depends on the as-of date. *)
Theorem calculateVesting_linear_formula (employee : Employee) (asOfDate : Time) :
  let s := Schedule employee in
  let monthsEmployed := monthsBetween (StartDate employee) asOfDate in
  0 < TotalUnits employee ->
  VestingType s = "linear" ->
  ValidateSchedule s = None ->
  GoInt.in_range (CliffMonths s) ->
  GoInt.in_range (VestingMonths s) ->
  GoInt.in_range monthsEmployed ->
  CliffMonths s <= monthsEmployed ->
  exists res,
    calculateVesting employee asOfDate = Ok res /\
    VestedUnits res =
    Float64.to_int
      (Float64.mul
         (Float64.div (Float64.of_int (TotalUnits employee))
                      (Float64.of_int (VestingMonths s - CliffMonths s)))
         (Float64.of_int
            (Z.min (monthsEmployed - CliffMonths s)
                   (VestingMonths s - CliffMonths s)))).
Proof.
  intros s monthsEmployed HT Hty Hv Hc Hm He Hcliff.
  apply ValidateSchedule_accepts_iff in Hv as (Hc0 & Hlt & _).
  fold s in Hc0, Hlt.
  unfold calculateVesting. fold s. fold monthsEmployed.
  destruct (Z.leb_spec (TotalUnits employee) 0); [lia |].
  destruct (Z.ltb_spec monthsEmployed (CliffMonths s)); [lia |].
  rewrite Hty. simpl String.eqb. cbv iota.
  eexists. split; [reflexivity |]. simpl VestedUnits.
  unfold linear_vested, vestingMonthsAfterCliff, GoInt.sub. fold s.
  fold monthsEmployed.
  unfold GoInt.in_range, GoInt.min_int, GoInt.max_int in *.
  rewrite !GoInt.wrap_id
    by (unfold GoInt.in_range, GoInt.min_int, GoInt.max_int; lia).
  do 3 f_equal.
  destruct (Z.ltb_spec (VestingMonths s - CliffMonths s)
              (monthsEmployed - CliffMonths s)); lia.
Qed.

Lemma calculateVesting_linear_formula_witness :
  exists res,
    calculateVesting
      (mkEmployee "emp4" "Fully-vested Employee" (mkTime 2019 January 1 0) 48000
         (mkVestingSchedule 12 48 "linear"))
      (mkTime 2023 June 1 0) = Ok res /\
    VestedUnits res = 48000.
Proof.
  destruct (calculateVesting_linear_formula
              (mkEmployee "emp4" "Fully-vested Employee"
                 (mkTime 2019 January 1 0) 48000
                 (mkVestingSchedule 12 48 "linear"))
              (mkTime 2023 June 1 0)) as (res & Hres & Hv).
  - simpl. lia.
  - reflexivity.
  - reflexivity.
  - unfold GoInt.in_range, GoInt.min_int, GoInt.max_int. simpl. lia.
  - unfold GoInt.in_range, GoInt.min_int, GoInt.max_int. simpl. lia.
  - unfold GoInt.in_range. split; apply Z.leb_le; vm_compute; reflexivity.
  - apply Z.leb_le. vm_compute. reflexivity.
  - exists res. split; [exact Hres |]. rewrite Hv. vm_compute. reflexivity.
Defined.

(** X26. An employee whose start date is not before the as-of date, under
    a schedule with a cliff, has nothing vested: the months employed are 0
    and the cliff rule applies. *)
Theorem calculateVesting_start_not_before_asOf
    (employee : Employee) (asOfDate : Time) :
  0 < TotalUnits employee ->
  0 < CliffMonths (Schedule employee) ->
  Before (StartDate employee) asOfDate = false ->
  calculateVesting employee asOfDate =
  Ok {| EmployeeID := ID employee;
        VestedUnits := 0;
        UnvestedUnits := TotalUnits employee;
        NextVestDate :=
          addMonths (StartDate employee) (CliffMonths (Schedule employee));
        AsOfDate := asOfDate |}.
Proof.
  intros HT Hc Hb. unfold calculateVesting, monthsBetween.
  rewrite monthsBetween_loop_step, Hb.
  destruct (Z.leb_spec (TotalUnits employee) 0); [lia |].
  destruct (Z.ltb_spec 0 (CliffMonths (Schedule employee))); [reflexivity | lia].
Qed.

Lemma calculateVesting_start_not_before_asOf_witness :
  let employee :=
    mkEmployee "future_start" "Future Start Employee" (mkTime 2024 January 1 0)
      10000 (mkVestingSchedule 12 48 "linear") in
  calculateVesting employee (mkTime 2023 January 1 0) =
  Ok {| EmployeeID := "future_start"; VestedUnits := 0; UnvestedUnits := 10000;
        NextVestDate := addMonths (mkTime 2024 January 1 0) 12;
        AsOfDate := mkTime 2023 January 1 0 |}.
Proof.
  intros employee.
  apply (calculateVesting_start_not_before_asOf employee (mkTime 2023 January 1 0)).
  - simpl. lia.
  - simpl. lia.
  - reflexivity.
Defined.

(** X13. From 48 months past the cliff on, the backloaded percentage is
    the sum of the four tranches, which is exactly 1, and the vested count
    no longer depends on the as-of date. *)
Theorem calculateVesting_backloaded_after_four_years
    (employee : Employee) (asOfDate : Time) :
  let s := Schedule employee in
  let monthsEmployed := monthsBetween (StartDate employee) asOfDate in
  0 < TotalUnits employee ->
  VestingType s = "backloaded" ->
  CliffMonths s <= monthsEmployed ->
  48 <= GoInt.sub monthsEmployed (CliffMonths s) ->
  backloaded_totalPercent (GoInt.sub monthsEmployed (CliffMonths s)) =
  Float64.of_int 1 /\
  exists res,
    calculateVesting employee asOfDate = Ok res /\
    VestedUnits res =
    Float64.to_int
      (Float64.floor
         (Float64.mul (Float64.of_int (TotalUnits employee)) (Float64.of_int 1))).
Proof.
  intros s monthsEmployed HT Hty Hc He.
  assert (backloaded_totalPercent (GoInt.sub monthsEmployed (CliffMonths s)) =
          Float64.of_int 1) as Hp.
  { unfold backloaded_totalPercent.
    set (elapsed := GoInt.sub monthsEmployed (CliffMonths s)) in *.
    assert (4 <= GoInt.quo elapsed 12) as Hq.
    { unfold GoInt.quo. apply Z.quot_le_lower_bound; lia. }
    rewrite sum_tranches_percentages.
    replace (Z.min (GoInt.quo elapsed 12) 3) with 3 by lia.
    destruct (Z.ltb_spec (GoInt.quo elapsed 12) (Z.of_nat (length percentages)))
      as [Hlt | _]; [simpl in Hlt; lia |].
    vm_compute. reflexivity. }
  split; [exact Hp |].
  unfold calculateVesting. fold s. fold monthsEmployed.
  destruct (Z.leb_spec (TotalUnits employee) 0); [lia |].
  destruct (Z.ltb_spec monthsEmployed (CliffMonths s)); [lia |].
  rewrite Hty. simpl String.eqb. cbv iota.
  eexists. split; [reflexivity |]. simpl VestedUnits.
  unfold backloaded_vested. fold s. fold monthsEmployed. now rewrite Hp.
Qed.

Lemma calculateVesting_backloaded_after_four_years_witness :
  exists res,
    calculateVesting
      (mkEmployee "back4" "Fully Vested Employee" (mkTime 2019 January 1 0) 40000
         (mkVestingSchedule 12 48 "backloaded"))
      (mkTime 2024 January 1 0) = Ok res /\
    VestedUnits res = 40000.
Proof.
  destruct (calculateVesting_backloaded_after_four_years
              (mkEmployee "back4" "Fully Vested Employee"
                 (mkTime 2019 January 1 0) 40000
                 (mkVestingSchedule 12 48 "backloaded"))
              (mkTime 2024 January 1 0)) as (_ & res & Hres & Hv).
  - simpl. lia.
  - reflexivity.
  - apply Z.leb_le. vm_compute. reflexivity.
  - apply Z.leb_le. vm_compute. reflexivity.
  - exists res. split; [exact Hres |]. rewrite Hv. vm_compute. reflexivity.
Defined.

Lemma backloaded_totalPercent_table :
  forallb
    (fun k : nat =>
       match SFcompare (backloaded_totalPercent (Z.of_nat k)) (Float64.of_int 1) with
       | Some Gt => 36 <? Z.of_nat k
       | Some _ => negb (36 <? Z.of_nat k)
       | None => false
       end) (seq 0 48) = true.
Proof. vm_compute. reflexivity. Qed.

Lemma backloaded_totalPercent_monotone_table :
  forallb
    (fun k1 : nat =>
       forallb
         (fun k2 : nat =>
            SFleb (backloaded_totalPercent (Z.of_nat k1))
                  (backloaded_totalPercent (Z.of_nat k2)))
         (seq k1 (48 - k1))) (seq 0 48) = true.
Proof. vm_compute. reflexivity. Qed.

(** X14. The backloaded percentage is above 1 exactly from the 37th to the
    47th month past the cliff: there the four tranches are already summed
    and the partial year comes on top. *)
Theorem backloaded_totalPercent_above_one_iff (elapsed : Z) :
  0 <= elapsed ->
  (SFcompare (backloaded_totalPercent elapsed) (Float64.of_int 1) = Some Gt <->
   36 < elapsed < 48).
Proof.
  intros H0.
  destruct (Z.le_gt_cases 48 elapsed) as [Hge | Hlt].
  - assert (backloaded_totalPercent elapsed = Float64.of_int 1) as ->.
    { unfold backloaded_totalPercent.
      assert (4 <= GoInt.quo elapsed 12) as Hq.
      { unfold GoInt.quo. apply Z.quot_le_lower_bound; lia. }
      rewrite sum_tranches_percentages.
      replace (Z.min (GoInt.quo elapsed 12) 3) with 3 by lia.
      destruct (Z.ltb_spec (GoInt.quo elapsed 12) (Z.of_nat (length percentages)))
        as [Hl | _]; [simpl in Hl; lia |].
      vm_compute. reflexivity. }
    split; [vm_compute; discriminate | lia].
  - pose proof backloaded_totalPercent_table as Ht.
    rewrite forallb_forall in Ht.
    specialize (Ht (Z.to_nat elapsed)).
    rewrite Z2Nat.id in Ht by lia.
    assert (In (Z.to_nat elapsed) (seq 0 48)) as Hin by (apply in_seq; lia).
    specialize (Ht Hin).
    destruct (SFcompare _ _) as [[| |] |]; try discriminate.
    + apply negb_true_iff, Z.ltb_ge in Ht. split; [discriminate | lia].
    + apply negb_true_iff, Z.ltb_ge in Ht. split; [discriminate | lia].
    + apply Z.ltb_lt in Ht. split; [lia | reflexivity].
Qed.

Lemma backloaded_totalPercent_above_one_iff_witness :
  SFcompare (backloaded_totalPercent 37) (Float64.of_int 1) = Some Gt.
Proof.
  apply (proj2 (backloaded_totalPercent_above_one_iff 37 ltac:(lia))). lia.
Defined.

(** X15. During the first 47 months past the cliff the backloaded
    percentage never decreases from one month to a later one. *)
Theorem backloaded_totalPercent_monotone (elapsed1 elapsed2 : Z) :
  0 <= elapsed1 -> elapsed1 <= elapsed2 -> elapsed2 < 48 ->
  SFleb (backloaded_totalPercent elapsed1) (backloaded_totalPercent elapsed2) = true.
Proof.
  intros H0 Hle Hlt.
  pose proof backloaded_totalPercent_monotone_table as Ht.
  rewrite forallb_forall in Ht.
  specialize (Ht (Z.to_nat elapsed1) ltac:(apply in_seq; lia)).
  rewrite forallb_forall in Ht.
  specialize (Ht (Z.to_nat elapsed2) ltac:(apply in_seq; lia)).
  now rewrite !Z2Nat.id in Ht by lia.
Qed.

Lemma backloaded_totalPercent_monotone_witness :
  SFleb (backloaded_totalPercent 11) (backloaded_totalPercent 12) = true.
Proof. apply backloaded_totalPercent_monotone; lia. Defined.

(** ** Further properties of the cache and of batch processing *)

(** X16. [ClearCache] leaves the cache of a new service: whatever was
    cached, a [GetResult] that follows finds nothing, and both calls take
    and release the mutex around their access. *)
Theorem ClearCache_then_GetResult (cache : gmap string VestingResult)
    (employeeID : string) :
  (ClearCache cache).1.2 = NewVestingService /\
  (_ ← ClearCache; GetResult employeeID) cache =
  (None, NewVestingService,
   [EvLock; EvCacheReplace; EvUnlock; EvLock; EvMapRead employeeID; EvUnlock]).
Proof.
  split; [reflexivity |].
  unfold mbind, M_bind, ClearCache, GetResult, lock, unlock, cache_replace,
    map_read, mret, M_ret, NewVestingService, NewVestingCache. simpl.
  now rewrite lookup_empty.
Qed.

Section ReadOnly.

Variable cache : gmap string VestingResult.

Lemma GetBatchResults_loop_trace ids :
  forall results,
    (GetBatchResults_loop ids results cache).1.2 = cache /\
    exists n : nat,
      (n <= length ids)%nat /\
      (GetBatchResults_loop ids results cache).2 =
      flat_map (fun id => [EvLock; EvMapRead id; EvUnlock]) (take n ids) /\
      (forall m, (GetBatchResults_loop ids results cache).1.1 = Ok m ->
                 n = length ids).
Proof.
  induction ids as [| id ids IH]; intros results.
  - split; [reflexivity |]. exists 0%nat. repeat split; auto.
  - rewrite GetBatchResults_loop_cons.
    destruct (cache !! id) as [res |].
    + destruct (IH (<[id := res]> results)) as (Hc & n & Hn & Htr & Hok).
      destruct (GetBatchResults_loop ids _ cache) as [[out c'] tr]. simpl in *.
      split; [exact Hc |]. exists (S n). split; [lia |]. split.
      * simpl. now rewrite Htr.
      * intros m Hm. f_equal. now apply (Hok m).
    + split; [reflexivity |]. exists 1%nat. simpl. split; [lia |].
      split; [reflexivity | discriminate].
Qed.

End ReadOnly.

(** X17. [GetResult] and [GetBatchResults] only read: the cache is the same
    after the call, whether the call succeeds or not. *)
Theorem GetBatchResults_read_only (employeeIDs : list string)
    (cache : gmap string VestingResult) :
  (GetBatchResults employeeIDs cache).1.2 = cache /\
  forall id, (GetResult id cache).1.2 = cache.
Proof.
  split; [apply GetBatchResults_loop_trace | reflexivity].
Qed.

Section LookupTrace.

Variable cache : gmap string VestingResult.

Lemma GetBatchResults_loop_trace_missing pre :
  forall id post results,
    (forall x, x ∈ pre -> is_Some (cache !! x)) ->
    cache !! id = None ->
    (GetBatchResults_loop (pre ++ id :: post) results cache).2 =
    flat_map (fun id => [EvLock; EvMapRead id; EvUnlock]) (pre ++ [id]).
Proof.
  induction pre as [| p pre IH]; intros id post results Hpre Hid.
  - simpl app. rewrite GetBatchResults_loop_cons, Hid. reflexivity.
  - rewrite <- !app_comm_cons, GetBatchResults_loop_cons.
    destruct (Hpre p) as [res ->]; [left |].
    specialize (IH id post (<[p := res]> results)).
    destruct (GetBatchResults_loop _ _ cache) as [[out c'] tr]. simpl in *.
    rewrite IH; [reflexivity | | exact Hid].
    intros x Hx. apply Hpre. now right.
Qed.

Lemma GetBatchResults_loop_trace_present ids :
  forall results,
    (forall x, x ∈ ids -> is_Some (cache !! x)) ->
    (GetBatchResults_loop ids results cache).2 =
    flat_map (fun id => [EvLock; EvMapRead id; EvUnlock]) ids.
Proof.
  induction ids as [| id ids IH]; intros results Hall; [reflexivity |].
  rewrite GetBatchResults_loop_cons.
  destruct (Hall id) as [res ->]; [left |].
  specialize (IH (<[id := res]> results)).
  destruct (GetBatchResults_loop ids _ cache) as [[out c'] tr]. simpl in *.
  rewrite IH; [reflexivity |]. intros x Hx. apply Hall. now right.
Qed.

End LookupTrace.

(** X18. [GetBatchResults] looks the identifiers up one by one, in request
    order, each lookup inside its own lock and unlock.  It stops at the
    first identifier it does not find: its events are then the lookups of
    the identifiers before that one and of that one, and nothing after.
    When every identifier is found its events are the lookups of all of
    them.  In both cases the events respect the locking discipline. *)
Theorem GetBatchResults_trace (employeeIDs : list string)
    (cache : gmap string VestingResult) :
  (forall pre id post,
      employeeIDs = pre ++ id :: post ->
      (forall x, x ∈ pre -> is_Some (cache !! x)) ->
      cache !! id = None ->
      (GetBatchResults employeeIDs cache).2 =
      flat_map (fun id => [EvLock; EvMapRead id; EvUnlock]) (pre ++ [id])) /\
  ((forall x, x ∈ employeeIDs -> is_Some (cache !! x)) ->
   (GetBatchResults employeeIDs cache).2 =
   flat_map (fun id => [EvLock; EvMapRead id; EvUnlock]) employeeIDs) /\
  lock_discipline false (GetBatchResults employeeIDs cache).2 = true.
Proof.
  unfold GetBatchResults. split_and!.
  - intros pre id post -> Hpre Hid.
    now apply GetBatchResults_loop_trace_missing.
  - intros Hall. now apply GetBatchResults_loop_trace_present.
  - apply GetBatchResults_loop_lock_discipline.
Qed.

Lemma GetBatchResults_trace_witness :
  let cache : gmap string VestingResult :=
    <["batch1" := mkVestingResult "batch1" 3333 6667 (mkTime 2023 February 1 0)
                    (mkTime 2023 January 1 0)]> ∅ in
  (GetBatchResults ["batch1"; "missing_employee"; "batch1"] cache).2 =
  [EvLock; EvMapRead "batch1"; EvUnlock;
   EvLock; EvMapRead "missing_employee"; EvUnlock] /\
  (GetBatchResults ["batch1"; "batch1"] cache).2 =
  [EvLock; EvMapRead "batch1"; EvUnlock; EvLock; EvMapRead "batch1"; EvUnlock].
Proof.
  intros cache. split.
  - apply (proj1 (GetBatchResults_trace
                    ["batch1"; "missing_employee"; "batch1"] cache)
             ["batch1"] "missing_employee" ["batch1"]).
    + reflexivity.
    + intros x Hx. apply list_elem_of_singleton in Hx as ->.
      vm_compute. eexists. reflexivity.
    + vm_compute. reflexivity.
  - apply (proj1 (proj2 (GetBatchResults_trace ["batch1"; "batch1"] cache))).
    intros x Hx. apply elem_of_cons in Hx as [-> | Hx];
      [| apply list_elem_of_singleton in Hx as ->];
      vm_compute; eexists; reflexivity.
Defined.

Section Batch.

Variable asOfDate : Time.

Lemma sent_errors_app l1 l2 :
  sent_errors asOfDate (l1 ++ l2) =
  sent_errors asOfDate l1 ++ sent_errors asOfDate l2.
Proof. unfold sent_errors. apply omap_app. Qed.


End Batch.

(** X22. The error [ProcessBatch] returns is the error of the first worker,
    in the order in which the workers finish, whose calculation fails. *)
Theorem ProcessBatch_first_error
    (pre post : list Employee) (e : Employee) (x : error)
    (asOfDate : Time) (cache : gmap string VestingResult) :
  (forall e', e' ∈ pre -> exists res, calculateVesting e' asOfDate = Ok res) ->
  calculateVesting e asOfDate = Err x ->
  (ProcessBatch (pre ++ e :: post) asOfDate cache).1.1 = Some x.
Proof.
  intros Hpre Hc. rewrite ProcessBatch_run. simpl.
  rewrite sent_errors_app.
  assert (sent_errors asOfDate pre = []) as ->.
  { destruct (sent_errors asOfDate pre) as [| y l] eqn:Hs; [reflexivity |].
    assert (y ∈ sent_errors asOfDate pre) as Hy by (rewrite Hs; left).
    apply elem_of_sent_errors in Hy as (e' & He' & Hc').
    destruct (Hpre e' He') as [res Hres]. congruence. }
  simpl. now rewrite Hc.
Qed.

Lemma ProcessBatch_first_error_witness :
  let good :=
    mkEmployee "cache_test" "Cache Test Employee" (mkTime 2021 January 1 0)
      10000 (mkVestingSchedule 12 48 "linear") in
  let zero :=
    mkEmployee "zero_units" "Zero Units Employee" (mkTime 2022 January 1 0) 0
      (mkVestingSchedule 12 48 "linear") in
  let neg :=
    mkEmployee "neg_units" "Negative Units Employee" (mkTime 2022 January 1 0)
      (-1000) (mkVestingSchedule 12 48 "linear") in
  (ProcessBatch [good; neg; zero] (mkTime 2023 January 1 0) ∅).1.1 =
  Some (ErrInvalidTotalUnits (-1000)).
Proof.
  intros good zero neg.
  apply (ProcessBatch_first_error [good] [zero] neg).
  - intros e' He'. apply list_elem_of_singleton in He' as ->.
    eexists. vm_compute. reflexivity.
  - vm_compute. reflexivity.
Defined.


